(** * Seat booking: a shallow embedding of [src/index.ts]

    The Durable Object [SeatBooking] owns one SQLite database (the table
    [seats]) and a set of accepted WebSockets.  Its methods are embedded as
    computations in a small monad that threads the object's world (storage,
    sockets, and a chronological trace of the SQL statements executed and of the
    messages put on the wire) and that can end in a JavaScript exception.

    Strings are sequences of code units below 256 ([String.string]); seat
    identifiers and occupant names of the program are of that kind.
    [console.log] calls are not embedded: they touch neither the storage nor
    the sockets. *)

From Stdlib Require Import String Ascii List Arith Bool Lia DecimalString.
Import ListNotations.
Local Open Scope string_scope.
Local Open Scope list_scope.

(* ================================================================== *)
(** ** Data *)

(** A row of [seats (seatId TEXT PRIMARY KEY, occupant TEXT)]; a SQL [null]
    occupant is [None]. *)
Record Row : Type := mkRow { seatId : string; occupant : option string }.

(** A table of the database.  The program only ever reads and writes the rows
    of [seats]; the tables the engine keeps for itself are listed by
    [PRAGMA table_list] next to it, and their rows are never looked at. *)
Record Table : Type := mkTable { name : string; rows : list Row }.

(** The database, as the list of its tables in the order in which
    [PRAGMA table_list] reports them. *)
Definition Storage : Type := list Table.

(** An accepted WebSocket (the server end).  [ws.send] raises once the
    connection is no longer open. *)
Record WebSocket : Type := mkWebSocket { ws_id : nat; ws_open : bool }.

(** The statements the program passes to [this.sql.exec]. *)
Inductive Stmt : Type :=
| PragmaTableList
| CreateTableSeats
| InsertSeat (seatNumber : string)
| SelectOccupant (seatId : string)
| UpdateClearOccupant (occupant : string)
| UpdateSetOccupant (occupant seatId : string)
| SelectSeats
| SelectOccupantNull
| UpdateClearOccupantNull
| UpdateSetOccupantWith (occupant seatId : option string).

(** What [sql.exec] makes of a JavaScript value passed as a parameter, in the
    two TEXT columns of [seats]: SQL NULL (for [undefined] and [null]), a text
    (a string as it is, a number as the text SQLite's TEXT affinity gives the
    bound double, so 5 is [5.0]), or a refusal to bind, in which case
    [sql.exec] raises.  Which values the runtime refuses is its own affair;
    the case is kept so that no value is left out. *)
Inductive Binding : Type :=
| BindNull
| BindText (s : string)
| BindError.

(** A value the handler takes out of the parsed body without checking its
    type, by the two things the program does with it: it prints it in a
    template literal and it passes it to [sql.exec]. *)
Record JsValue : Type := mkJsValue { template_text : string; binding : Binding }.

Definition js_string (s : string) : JsValue := mkJsValue s (BindText s).
Definition js_undefined : JsValue := mkJsValue "undefined" BindNull.
Definition js_null : JsValue := mkJsValue "null" BindNull.

(** A number, by its text in a template literal and the text it is bound as. *)
Definition js_number (shown bound : string) : JsValue := mkJsValue shown (BindText bound).

(** What the object does that is visible from outside, in order. *)
Inductive Event : Type :=
| Exec (q : Stmt)
| Send (ws : nat) (payload : string).

Inductive Exn : Type :=
| TypeError (msg : string)
| SyntaxError (msg : string)
| SqlError (msg : string).

Record World : Type := mkWorld {
  storage : Storage;
  sockets : list WebSocket;
  trace : list Event
}.

Record Response : Type := mkResponse {
  resp_body : option string;
  status : nat;
  headers : list (string * string);
  webSocket : option nat
}.

(** [new Response(body)] and [new Response(body, { status })]; [headers] lists
    the headers the program sets itself. *)
Definition text_response (body : string) (st : nat) : Response :=
  mkResponse (Some body) st [] None.

(* ================================================================== *)
(** ** The monad of the object's methods *)

Inductive Outcome (A : Type) : Type :=
| Returned (a : A)
| Thrown (e : Exn).
Arguments Returned {A} a.
Arguments Thrown {A} e.

Definition M (A : Type) : Type := World -> Outcome A * World.

Definition ret {A} (a : A) : M A := fun w => (Returned a, w).

Definition bind {A B} (m : M A) (k : A -> M B) : M B :=
  fun w =>
    match m w with
    | (Returned a, w') => k a w'
    | (Thrown e, w') => (Thrown e, w')
    end.

Definition throw {A} (e : Exn) : M A := fun w => (Thrown e, w).

Notation "x <- m ;; k" := (bind m (fun x => k))
  (at level 61, m at next level, right associativity).
Notation "m ;;; k" := (bind m (fun _ => k))
  (at level 61, right associativity).

(** [xs.forEach(f)] and the counted [for] loops: the body runs on each element
    in order and the first exception ends the loop. *)
Fixpoint forEach {A} (xs : list A) (f : A -> M unit) : M unit :=
  match xs with
  | [] => ret tt
  | x :: xs' => f x ;;; forEach xs' f
  end.

Definition emit (e : Event) (w : World) : World :=
  mkWorld (storage w) (sockets w) (trace w ++ [e]).

Definition log (e : Event) : M unit := fun w => (Returned tt, emit e w).

Definition set_storage (s : Storage) (w : World) : World :=
  mkWorld s (sockets w) (trace w).

(* ================================================================== *)
(** ** The SQL engine, as far as the program uses it *)

Definition seats_name : string := "seats".

Definition is_seats (t : Table) : bool := String.eqb (name t) seats_name.

(** The rows of the table [seats], if the database has one. *)
Fixpoint seats_rows (s : Storage) : option (list Row) :=
  match s with
  | [] => None
  | t :: s' => if is_seats t then Some (rows t) else seats_rows s'
  end.

(** Rewrite the rows of the table [seats]. *)
Fixpoint alter_seats (f : list Row -> list Row) (s : Storage) : Storage :=
  match s with
  | [] => []
  | t :: s' =>
      if is_seats t then mkTable (name t) (f (rows t)) :: s'
      else t :: alter_seats f s'
  end.

Definition no_such_table : Exn := SqlError "no such table: seats".
Definition unique_failed : Exn := SqlError "UNIQUE constraint failed: seats.seatId".

(** [PRAGMA table_list]: one row per table; the program reads the column
    [name]. *)
Definition sql_table_list : M (list string) :=
  log (Exec PragmaTableList) ;;;
  fun w => (Returned (map name (storage w)), w).

(** [CREATE TABLE IF NOT EXISTS seats (seatId TEXT PRIMARY KEY, occupant TEXT)].
    SQLite links a new table at the head of the schema's table list, which is
    the list [PRAGMA table_list] walks. *)
Definition sql_create_seats : M unit :=
  log (Exec CreateTableSeats) ;;;
  fun w =>
    match seats_rows (storage w) with
    | Some _ => (Returned tt, w)
    | None => (Returned tt, set_storage (mkTable seats_name [] :: storage w) w)
    end.

Definition has_seat (sid : string) (rs : list Row) : bool :=
  existsb (fun r => String.eqb (seatId r) sid) rs.

(** [INSERT INTO seats VALUES (?, null)]: the primary key refuses a second row
    with the same [seatId]. *)
Definition sql_insert_seat (seatNumber : string) : M unit :=
  log (Exec (InsertSeat seatNumber)) ;;;
  fun w =>
    match seats_rows (storage w) with
    | None => (Thrown no_such_table, w)
    | Some rs =>
        if has_seat seatNumber rs then (Thrown unique_failed, w)
        else (Returned tt,
              set_storage (alter_seats (fun rs => rs ++ [mkRow seatNumber None]) (storage w)) w)
    end.

(** [SELECT occupant FROM seats WHERE seatId = ?]: the column [occupant] of
    the rows selected. *)
Definition select_occupant (sid : string) (rs : list Row) : list (option string) :=
  map occupant (filter (fun r => String.eqb (seatId r) sid) rs).

Definition sql_select_occupant (sid : string) : M (list (option string)) :=
  log (Exec (SelectOccupant sid)) ;;;
  fun w =>
    match seats_rows (storage w) with
    | None => (Thrown no_such_table, w)
    | Some rs => (Returned (select_occupant sid rs), w)
    end.

Definition holds (who : string) (r : Row) : bool :=
  match occupant r with
  | Some o => String.eqb o who
  | None => false
  end.

(** [UPDATE seats SET occupant = null WHERE occupant = ?]. *)
Definition clear_occupant (who : string) (rs : list Row) : list Row :=
  map (fun r => if holds who r then mkRow (seatId r) None else r) rs.

(** [UPDATE seats SET occupant = ? WHERE seatId = ?]. *)
Definition set_occupant (who sid : string) (rs : list Row) : list Row :=
  map (fun r => if String.eqb (seatId r) sid then mkRow (seatId r) (Some who) else r) rs.

Definition sql_update (q : Stmt) (f : list Row -> list Row) : M unit :=
  log (Exec q) ;;;
  fun w =>
    match seats_rows (storage w) with
    | None => (Thrown no_such_table, w)
    | Some _ => (Returned tt, set_storage (alter_seats f (storage w)) w)
    end.

Definition sql_clear_occupant (who : string) : M unit :=
  sql_update (UpdateClearOccupant who) (clear_occupant who).

Definition sql_set_occupant (who sid : string) : M unit :=
  sql_update (UpdateSetOccupant who sid) (set_occupant who sid).

(** [SELECT seatId, occupant FROM seats]. *)
Definition sql_select_seats : M (list Row) :=
  log (Exec SelectSeats) ;;;
  fun w =>
    match seats_rows (storage w) with
    | None => (Thrown no_such_table, w)
    | Some rs => (Returned rs, w)
    end.

(** The three statements of [assignSeat] when the parameters are not known to
    be strings.  A comparison with NULL selects no row; a value that cannot be
    bound makes [sql.exec] raise before the statement runs. *)
Definition bind_error : Exn := TypeError "sql.exec: value cannot be bound".

Definition sql_select_occupant_bound (key : Binding) : M (list (option string)) :=
  match key with
  | BindText sid => sql_select_occupant sid
  | BindNull =>
      log (Exec SelectOccupantNull) ;;;
      fun w =>
        match seats_rows (storage w) with
        | None => (Thrown no_such_table, w)
        | Some _ => (Returned [], w)
        end
  | BindError => throw bind_error
  end.

Definition sql_clear_occupant_bound (who : Binding) : M unit :=
  match who with
  | BindText o => sql_clear_occupant o
  | BindNull => sql_update UpdateClearOccupantNull (fun rs => rs)
  | BindError => throw bind_error
  end.

(** [UPDATE seats SET occupant = NULL WHERE seatId = ?]. *)
Definition set_occupant_null (sid : string) (rs : list Row) : list Row :=
  map (fun r => if String.eqb (seatId r) sid then mkRow (seatId r) None else r) rs.

Definition sql_set_occupant_bound (who key : Binding) : M unit :=
  match who, key with
  | BindError, _ => throw bind_error
  | _, BindError => throw bind_error
  | BindText o, BindText sid => sql_set_occupant o sid
  | BindNull, BindText sid =>
      sql_update (UpdateSetOccupantWith None (Some sid)) (set_occupant_null sid)
  | BindText o, BindNull =>
      sql_update (UpdateSetOccupantWith (Some o) None) (fun rs => rs)
  | BindNull, BindNull =>
      sql_update (UpdateSetOccupantWith None None) (fun rs => rs)
  end.

(* ================================================================== *)
(** ** [JSON.stringify], on the values the program passes to it *)

Module JSON.

Definition dquote : ascii := ascii_of_nat 34.
Definition backslash : ascii := ascii_of_nat 92.
Definition str (c : ascii) : string := String c EmptyString.

Definition hex_digit (n : nat) : ascii :=
  if (n <? 10)%nat then ascii_of_nat (48 + n) else ascii_of_nat (87 + n).

(** QuoteJSONString on one code unit: the two-character escapes, [\u00xx]
    for the other control characters, the character itself otherwise. *)
Definition quote_char (c : ascii) : string :=
  let n := nat_of_ascii c in
  if (n =? 8)%nat then "\b"
  else if (n =? 9)%nat then "\t"
  else if (n =? 10)%nat then "\n"
  else if (n =? 12)%nat then "\f"
  else if (n =? 13)%nat then "\r"
  else if (n =? 34)%nat then String backslash (str dquote)
  else if (n =? 92)%nat then String backslash (str backslash)
  else if (n <? 32)%nat then "\u00" ++ String (hex_digit (n / 16)) (str (hex_digit (n mod 16)))
  else str c.

Fixpoint quote_chars (s : string) : string :=
  match s with
  | EmptyString => EmptyString
  | String c s' => quote_char c ++ quote_chars s'
  end.

(** [JSON.stringify(s)] for a string [s]. *)
Definition stringify_string (s : string) : string :=
  String dquote (quote_chars s ++ str dquote).

(** [JSON.stringify(v)] for [v : string | null]. *)
Definition stringify_nullable (v : option string) : string :=
  match v with
  | Some s => stringify_string s
  | None => "null"
  end.

(** [JSON.stringify({ seatNumber: ..., occupant: ... })]. *)
Definition stringify_seat (r : Row) : string :=
  "{" ++ stringify_string "seatNumber" ++ ":" ++ stringify_string (seatId r)
      ++ "," ++ stringify_string "occupant" ++ ":" ++ stringify_nullable (occupant r)
      ++ "}".

Fixpoint join (sep : string) (xs : list string) : string :=
  match xs with
  | [] => EmptyString
  | [x] => x
  | x :: xs' => x ++ sep ++ join sep xs'
  end.

(** [JSON.stringify(results)] for the array [getSeats] builds. *)
Definition stringify_seats (results : list Row) : string :=
  "[" ++ join "," (map stringify_seat results) ++ "]".

End JSON.

(* ================================================================== *)
(** ** The class [SeatBooking] *)

(** [`${row}${String.fromCharCode(65 + col)}`]. *)
Definition seatNumber_of (row col : nat) : string :=
  NilEmpty.string_of_uint (Nat.to_uint row) ++ String (ascii_of_nat (65 + col)) EmptyString.

(** [initializeSeats]: [[...cursor][0].name] raises a TypeError on an empty
    cursor; otherwise only the first row of the table list is compared with
    ['seats']. *)
Definition initializeSeats : M unit :=
  cursor <- sql_table_list ;;
  match cursor with
  | [] => throw (TypeError "Cannot read properties of undefined (reading 'name')")
  | first :: _ =>
      if String.eqb first "seats" then ret tt
      else
        sql_create_seats ;;;
        forEach (seq 1 10) (fun row =>
          forEach (seq 0 6) (fun col =>
            sql_insert_seat (seatNumber_of row col)))
  end.

(** [getSeats]: the rows of the table, renamed to [{seatNumber, occupant}], as
    JSON text. *)
Definition getSeats : M string :=
  results <- sql_select_seats ;;
  ret (JSON.stringify_seats results).

(** [this.ctx.getWebSockets()]. *)
Definition getWebSockets : M (list WebSocket) :=
  fun w => (Returned (sockets w), w).

(** [ws.send(payload)]. *)
Definition ws_send (ws : WebSocket) (payload : string) : M unit :=
  if ws_open ws then log (Send (ws_id ws) payload)
  else throw (TypeError "WebSocket send() after close").

(** [broadcastSeats]: the callback of [forEach] calls [getSeats] itself. *)
Definition broadcastSeats : M unit :=
  wss <- getWebSockets ;;
  forEach wss (fun ws => payload <- getSeats ;; ws_send ws payload).

Definition seat_not_available : Response := text_response "Seat not available" 400.

Definition booked (sid : string) : Response :=
  text_response ("Seat " ++ sid ++ " booked successfully") 200.

(** [assignSeat(seatId, occupant)]. *)
Definition assignSeat (sid who : string) : M Response :=
  cursor <- sql_select_occupant sid ;;
  match hd_error cursor with
  | None => ret seat_not_available
  | Some result =>
      match result with
      | Some _ => ret seat_not_available
      | None =>
          sql_clear_occupant who ;;;
          sql_set_occupant who sid ;;;
          broadcastSeats ;;;
          ret (booked sid)
      end
  end.

(** [assignSeat] on whatever values reach it: [fetch] casts the parsed body
    without a check, so its two arguments need not be strings.  On two
    strings this is [assignSeat]. *)
Definition assignSeat_any (seatId occupant : JsValue) : M Response :=
  cursor <- sql_select_occupant_bound (binding seatId) ;;
  match hd_error cursor with
  | None => ret seat_not_available
  | Some result =>
      match result with
      | Some _ => ret seat_not_available
      | None =>
          sql_clear_occupant_bound (binding occupant) ;;;
          sql_set_occupant_bound (binding occupant) (binding seatId) ;;;
          broadcastSeats ;;;
          ret (text_response ("Seat " ++ template_text seatId ++ " booked successfully") 200)
      end
  end.

(** [this.ctx.acceptWebSocket(server)]: the server end joins the sockets of
    the object under an identity no other socket has.  The order in which
    [getWebSockets] lists the sockets is the runtime's; it lists the newest
    first. *)
Definition acceptWebSocket : M nat :=
  fun w =>
    let id := S (list_max (map ws_id (sockets w))) in
    (Returned id, mkWorld (storage w) (mkWebSocket id true :: sockets w) (trace w)).

(** [handleWebSocket]. *)
Definition handleWebSocket : M Response :=
  client <- acceptWebSocket ;;
  ret (mkResponse None 101 [] (Some client)).

(** The body of a request as [request.json()] and the destructuring
    [{ seatNumber, name }] see it: text that is not JSON; the JSON value
    [null]; or any other JSON value, by the two properties the handler reads
    from it ([undefined] for a property the value does not have, as for every
    property of a number, a string, a boolean or an array). *)
Inductive Body : Type :=
| NotJSON
| JsonNull
| JsonFields (seatNumber name : JsValue).

(** The body [{ seatNumber, name }] with two strings. *)
Definition BookSeat (seatNumber name : string) : Body :=
  JsonFields (js_string seatNumber) (js_string name).

Record Request : Type := mkRequest {
  method : string;
  pathname : string;
  upgrade : option string;
  body : Body
}.

(** [const { seatNumber, name } = await request.json()]: [json()] rejects on
    text that is not JSON, and [null] cannot be destructured. *)
Definition request_json (r : Request) : M (JsValue * JsValue) :=
  match body r with
  | NotJSON => throw (SyntaxError "Unexpected token")
  | JsonNull => throw (TypeError "Cannot destructure 'seatNumber' of null")
  | JsonFields sn nm => ret (sn, nm)
  end.

Definition is_upgrade (r : Request) : bool :=
  match upgrade r with
  | Some v => String.eqb v "websocket"
  | None => false
  end.

(** [fetch(request)]. *)
Definition fetch (request : Request) : M Response :=
  if String.eqb (method request) "GET" && String.eqb (pathname request) "/seats" then
    seats <- getSeats ;;
    ret (mkResponse (Some (JSON.stringify_string seats)) 200
           [("Content-Type", "application/json")] None)
  else if String.eqb (method request) "POST" && String.eqb (pathname request) "/book-seat" then
    fields <- request_json request ;;
    assignSeat_any (fst fields) (snd fields)
  else if is_upgrade request then
    handleWebSocket
  else
    ret (text_response "Not found" 404).

(** [new SeatBooking(state, env)] on a database [s]: no socket accepted yet,
    and the constructor runs [initializeSeats]. *)
Definition construct (s : Storage) : Outcome unit * World :=
  initializeSeats (mkWorld s [] []).

(** A booking request, and the object's world after a sequence of them. *)
Definition Booking : Type := (string * string)%type.

Definition after_booking (w : World) (b : Booking) : World :=
  snd (assignSeat (fst b) (snd b) w).

Definition run_bookings (bs : list Booking) (w : World) : World :=
  fold_left after_booking bs w.

(** The object's world after a sequence of requests of any kind, each served
    to its end before the next one. *)
Definition run_requests (reqs : list Request) (w : World) : World :=
  fold_left (fun w req => snd (fetch req w)) reqs w.

(* ================================================================== *)
(** ** Predicates of the specification *)

(** The seat [sid] as the program reads it: [None] when no row has that
    identifier, otherwise the occupant of the row. *)
Definition seat_lookup (sid : string) (w : World) : option (option string) :=
  match seats_rows (storage w) with
  | None => None
  | Some rs => hd_error (select_occupant sid rs)
  end.

(** No two seats with different identifiers have the same occupant. *)
Definition occupant_unique (rs : list Row) : Prop :=
  forall r1 r2 o,
    In r1 rs -> In r2 rs ->
    occupant r1 = Some o -> occupant r2 = Some o ->
    seatId r1 = seatId r2.

(** The primary key: no two rows with the same identifier. *)
Definition key_unique (rs : list Row) : Prop := NoDup (map seatId rs).

Definition is_send (e : Event) : bool :=
  match e with Send _ _ => true | Exec _ => false end.

Definition is_update (e : Event) : bool :=
  match e with
  | Exec (UpdateClearOccupant _) | Exec (UpdateSetOccupant _ _) => true
  | Exec UpdateClearOccupantNull | Exec (UpdateSetOccupantWith _ _) => true
  | _ => false
  end.


(** The sends to the socket [id] among [evs]. *)
Definition sends_to (id : nat) (evs : list Event) : list string :=
  flat_map (fun e => match e with
                     | Send i p => if Nat.eqb i id then [p] else []
                     | Exec _ => []
                     end) evs.

(** What one round of the broadcast loop puts on the trace for a socket. *)
Definition push_events (payload : string) (ws : WebSocket) : list Event :=
  [Exec SelectSeats; Send (ws_id ws) payload].

(** A database in which no table is called [seats] yet and that lists the
    engine's own schema table, as a new SQLite database does. *)
Definition fresh_db : Storage := [mkTable "sqlite_schema" []].

(** The 60 rows the seeding loop inserts. *)
Definition layout : list string :=
  flat_map (fun row => map (seatNumber_of row) (seq 0 6)) (seq 1 10).

Definition seeded_rows : list Row := map (fun s => mkRow s None) layout.

(** The table after the two UPDATE statements of a booking. *)
Definition book_rows (who sid : string) (rs : list Row) : list Row :=
  set_occupant who sid (clear_occupant who rs).

Definition book_storage (who sid : string) (s : Storage) : Storage :=
  alter_seats (set_occupant who sid) (alter_seats (clear_occupant who) s).

Definition emit_all (evs : list Event) (w : World) : World :=
  mkWorld (storage w) (sockets w) (trace w ++ evs).

Definition all_open (wss : list WebSocket) : bool := forallb ws_open wss.

(** The text of the array [getSeats] returns for the table [rs]. *)
Definition snapshot (rs : list Row) : string := JSON.stringify_seats rs.

Definition send_closed : Exn := TypeError "WebSocket send() after close".

(** Whether a list of identifiers has no repetition. *)
Fixpoint distinct (xs : list string) : bool :=
  match xs with
  | [] => true
  | x :: xs' => negb (existsb (String.eqb x) xs') && distinct xs'
  end.

(** Whether the table satisfies occupant uniqueness, by enumeration. *)
Fixpoint occupants_distinct (rs : list Row) : bool :=
  match rs with
  | [] => true
  | r :: rs' =>
      match occupant r with
      | None => true
      | Some o =>
          negb (existsb (fun r' => holds o r' && negb (String.eqb (seatId r') (seatId r))) rs')
      end && occupants_distinct rs'
  end.

(** Concrete worlds for the examples: a table in which Alice has seat 1A, with
    two open sockets, and the same table when the first socket has closed. *)
Definition demo_db : Storage :=
  [mkTable "seats" [mkRow "1A" (Some "Alice"); mkRow "1B" None; mkRow "2A" None];
   mkTable "sqlite_schema" []].

Definition demo_world : World :=
  mkWorld demo_db [mkWebSocket 1 true; mkWebSocket 2 true] [].

Definition demo_world_closed : World :=
  mkWorld demo_db [mkWebSocket 1 false; mkWebSocket 2 true] [].

(** The database the constructor seeds from [fresh_db], and the same tables
    listed the other way round by [PRAGMA table_list]. *)
Definition seeded_db : Storage := storage (snd (construct fresh_db)).

Definition get_seats_request : Request := mkRequest "GET" "/seats" None NotJSON.

Definition book_request (b : Body) : Request := mkRequest "POST" "/book-seat" None b.

(* ================================================================== *)
(** ** The Worker in front of the objects *)

(** [env.SEAT_BOOKING]: the object the runtime keeps for each name, as its
    world.  [idFromName] and [get] reach the object of a name; nothing else
    does. *)
Definition Namespace : Type := string -> World.

(** A request as the Worker reads it: the value of
    [url.searchParams.get('flightId')] ([None] for [null]) and the request it
    forwards. *)
Record WorkerRequest : Type := mkWorkerRequest {
  flightId : option string;
  forwarded : Request
}.

(** [!flightId]: [null] and the empty string are falsy. *)
Definition no_flight (v : option string) : bool :=
  match v with
  | None => true
  | Some f => String.eqb f ""
  end.

Definition set_object (f : string) (w : World) (ns : Namespace) : Namespace :=
  fun g => if String.eqb g f then w else ns g.

(** The default export's [fetch(request, env, ctx)]. *)
Definition worker_fetch (r : WorkerRequest) (ns : Namespace) : Outcome Response * Namespace :=
  match flightId r with
  | None => (Returned (text_response "Flight ID not found" 404), ns)
  | Some f =>
      if String.eqb f "" then (Returned (text_response "Flight ID not found" 404), ns)
      else
        let res := fetch (forwarded r) (ns f) in
        (fst res, set_object f (snd res) ns)
  end.

Definition run_worker (rs : list WorkerRequest) (ns : Namespace) : Namespace :=
  fold_left (fun ns r => snd (worker_fetch r ns)) rs ns.

(** Whether the Worker forwards the request to the object named [g]. *)
Definition addressed_to (g : string) (r : WorkerRequest) : bool :=
  match flightId r with
  | Some f => String.eqb f g && negb (String.eqb f "")
  | None => false
  end.

(* ================================================================== *)
(** ** Readers for the JSON text the program produces

    These are not part of the program: they read back what [JSON.stringify]
    wrote, and serve to show that the snapshot loses nothing of the table. *)

Definition hex_value (c : ascii) : option nat :=
  let n := nat_of_ascii c in
  if ((48 <=? n) && (n <=? 57))%nat then Some (n - 48)
  else if ((97 <=? n) && (n <=? 102))%nat then Some (n - 87)
  else None.

Definition unescape (e : ascii) : option ascii :=
  let n := nat_of_ascii e in
  if (n =? 98)%nat then Some (ascii_of_nat 8)
  else if (n =? 116)%nat then Some (ascii_of_nat 9)
  else if (n =? 110)%nat then Some (ascii_of_nat 10)
  else if (n =? 102)%nat then Some (ascii_of_nat 12)
  else if (n =? 114)%nat then Some (ascii_of_nat 13)
  else if (n =? 34)%nat then Some JSON.dquote
  else if (n =? 92)%nat then Some JSON.backslash
  else None.

Definition push_char (c : ascii) (r : option (string * string)) : option (string * string) :=
  match r with
  | Some (d, rest) => Some (String c d, rest)
  | None => None
  end.

(** Read the characters of a string literal after its opening quote, up to
    the closing quote; the text after it is returned too. *)
Fixpoint read_string (s : string) : option (string * string) :=
  match s with
  | EmptyString => None
  | String c s1 =>
      if Ascii.eqb c JSON.dquote then Some (EmptyString, s1)
      else if Ascii.eqb c JSON.backslash then
        match s1 with
        | EmptyString => None
        | String e s2 =>
            if Ascii.eqb e "u" then
              match s2 with
              | String z1 (String z2 (String h1 (String h2 s3))) =>
                  match hex_value z1, hex_value z2, hex_value h1, hex_value h2 with
                  | Some 0, Some 0, Some a, Some b =>
                      push_char (ascii_of_nat (16 * a + b)) (read_string s3)
                  | _, _, _, _ => None
                  end
              | _ => None
              end
            else
              match unescape e with
              | Some x => push_char x (read_string s2)
              | None => None
              end
        end
      else push_char c (read_string s1)
  end.

(** Drop the prefix [p] of [s]. *)
Fixpoint strip (p s : string) : option string :=
  match p with
  | EmptyString => Some s
  | String c p' =>
      match s with
      | EmptyString => None
      | String d s' => if Ascii.eqb c d then strip p' s' else None
      end
  end.

Definition read_nullable (s : string) : option (option string * string) :=
  match strip "null" s with
  | Some rest => Some (None, rest)
  | None =>
      match strip (JSON.str JSON.dquote) s with
      | Some s1 =>
          match read_string s1 with
          | Some (d, rest) => Some (Some d, rest)
          | None => None
          end
      | None => None
      end
  end.

(** Read one record [{seatNumber, occupant}] at the head of [s]. *)
Definition read_seat (s : string) : option (Row * string) :=
  match strip ("{" ++ JSON.stringify_string "seatNumber" ++ ":" ++ JSON.str JSON.dquote) s with
  | None => None
  | Some s1 =>
      match read_string s1 with
      | None => None
      | Some (sid, s2) =>
          match strip ("," ++ JSON.stringify_string "occupant" ++ ":") s2 with
          | None => None
          | Some s3 =>
              match read_nullable s3 with
              | None => None
              | Some (occ, s4) =>
                  match strip "}" s4 with
                  | None => None
                  | Some rest => Some (mkRow sid occ, rest)
                  end
              end
          end
      end
  end.

(* ================================================================== *)
(** ** The monad and the SQL engine: equations *)

Lemma emit_all_nil (w : World) : emit_all [] w = w.
Proof. destruct w; unfold emit_all; simpl. now rewrite app_nil_r. Qed.

Lemma emit_all_app (e1 e2 : list Event) (w : World) :
  emit_all e2 (emit_all e1 w) = emit_all (e1 ++ e2) w.
Proof. unfold emit_all; simpl. now rewrite app_assoc. Qed.

Lemma emit_is_emit_all (e : Event) (w : World) : emit e w = emit_all [e] w.
Proof. reflexivity. Qed.

Lemma seats_rows_alter (f : list Row -> list Row) (s : Storage) (rs : list Row) :
  seats_rows s = Some rs -> seats_rows (alter_seats f s) = Some (f rs).
Proof.
  induction s as [|t s IH]; simpl; [discriminate|].
  destruct (is_seats t) eqn:E.
  - intros [= <-]. simpl. unfold is_seats in *. simpl. now rewrite E.
  - intros H. simpl. rewrite E. auto.
Qed.

Lemma seats_rows_alter_none (f : list Row -> list Row) (s : Storage) :
  seats_rows s = None -> alter_seats f s = s.
Proof.
  induction s as [|t s IH]; simpl; [reflexivity|].
  destruct (is_seats t); [discriminate|]. intros H. now rewrite IH.
Qed.

Lemma alter_seats_names (f : list Row -> list Row) (s : Storage) :
  map name (alter_seats f s) = map name s.
Proof.
  induction s as [|t s IH]; simpl; [reflexivity|].
  destruct (is_seats t); simpl; congruence.
Qed.

Lemma alter_seats_id (f : list Row -> list Row) (s : Storage) (rs : list Row) :
  seats_rows s = Some rs -> f rs = rs -> alter_seats f s = s.
Proof.
  induction s as [|t s IH]; simpl; [reflexivity|].
  destruct (is_seats t).
  - intros [= <-] ->. now destruct t.
  - intros H1 H2. now rewrite IH.
Qed.

Lemma seats_rows_book (who sid : string) (s : Storage) (rs : list Row) :
  seats_rows s = Some rs ->
  seats_rows (book_storage who sid s) = Some (book_rows who sid rs).
Proof.
  intros H. unfold book_storage, book_rows.
  now apply seats_rows_alter, seats_rows_alter.
Qed.

Lemma sql_select_occupant_run (sid : string) (w : World) (rs : list Row) :
  seats_rows (storage w) = Some rs ->
  sql_select_occupant sid w
  = (Returned (select_occupant sid rs), emit_all [Exec (SelectOccupant sid)] w).
Proof.
  intros H. unfold sql_select_occupant, bind, log. simpl. now rewrite H.
Qed.

Lemma sql_update_run (q : Stmt) (f : list Row -> list Row) (w : World) (rs : list Row) :
  seats_rows (storage w) = Some rs ->
  sql_update q f w
  = (Returned tt, set_storage (alter_seats f (storage w)) (emit_all [Exec q] w)).
Proof.
  intros H. unfold sql_update, bind, log. simpl. now rewrite H.
Qed.

Lemma getSeats_run (w : World) (rs : list Row) :
  seats_rows (storage w) = Some rs ->
  getSeats w = (Returned (snapshot rs), emit_all [Exec SelectSeats] w).
Proof.
  intros H. unfold getSeats, sql_select_seats, bind, log, ret. simpl. now rewrite H.
Qed.

(** One round of the broadcast loop on an open socket. *)
Lemma push_open (ws : WebSocket) (w : World) (rs : list Row) :
  seats_rows (storage w) = Some rs -> ws_open ws = true ->
  (payload <- getSeats ;; ws_send ws payload) w
  = (Returned tt, emit_all (push_events (snapshot rs) ws) w).
Proof.
  intros H Ho. unfold bind. rewrite (getSeats_run w rs H).
  unfold ws_send. rewrite Ho. unfold log. rewrite emit_is_emit_all, emit_all_app.
  reflexivity.
Qed.

(** One round of the broadcast loop on a socket that is no longer open: the
    snapshot is still queried, then [send] raises. *)
Lemma push_closed (ws : WebSocket) (w : World) (rs : list Row) :
  seats_rows (storage w) = Some rs -> ws_open ws = false ->
  (payload <- getSeats ;; ws_send ws payload) w
  = (Thrown send_closed, emit_all [Exec SelectSeats] w).
Proof.
  intros H Hc. unfold bind. rewrite (getSeats_run w rs H).
  unfold ws_send. rewrite Hc. reflexivity.
Qed.

(** The loop over open sockets: every socket is served, in order. *)
Lemma forEach_push_open (wss : list WebSocket) (w : World) (rs : list Row) :
  seats_rows (storage w) = Some rs -> all_open wss = true ->
  forEach wss (fun ws => payload <- getSeats ;; ws_send ws payload) w
  = (Returned tt, emit_all (flat_map (push_events (snapshot rs)) wss) w).
Proof.
  revert w. induction wss as [|ws wss IH]; intros w H Ho.
  - simpl. unfold ret. now rewrite emit_all_nil.
  - simpl in Ho. apply andb_true_iff in Ho as [Ho1 Ho2].
    cbn [forEach]. unfold bind at 1. rewrite (push_open ws w rs H Ho1).
    rewrite IH by (simpl; assumption).
    rewrite emit_all_app. reflexivity.
Qed.

(** The loop stops at the first socket that is no longer open. *)
Lemma forEach_push_closed (pre post : list WebSocket) (ws : WebSocket)
      (w : World) (rs : list Row) :
  seats_rows (storage w) = Some rs ->
  all_open pre = true -> ws_open ws = false ->
  forEach (pre ++ ws :: post) (fun ws => payload <- getSeats ;; ws_send ws payload) w
  = (Thrown send_closed,
     emit_all (flat_map (push_events (snapshot rs)) pre ++ [Exec SelectSeats]) w).
Proof.
  revert w. induction pre as [|p pre IH]; intros w H Ho Hc.
  - cbn [app forEach flat_map]. unfold bind at 1.
    now rewrite (push_closed ws w rs H Hc).
  - simpl in Ho. apply andb_true_iff in Ho as [Ho1 Ho2].
    cbn [app forEach]. unfold bind at 1. rewrite (push_open p w rs H Ho1).
    rewrite IH by (simpl; assumption).
    rewrite emit_all_app. cbn [flat_map]. now rewrite app_assoc.
Qed.

Lemma broadcastSeats_open (w : World) (rs : list Row) :
  seats_rows (storage w) = Some rs -> all_open (sockets w) = true ->
  broadcastSeats w
  = (Returned tt, emit_all (flat_map (push_events (snapshot rs)) (sockets w)) w).
Proof.
  intros H Ho. unfold broadcastSeats, bind at 1, getWebSockets.
  now apply forEach_push_open.
Qed.

Lemma broadcastSeats_closed (w : World) (rs : list Row)
      (pre post : list WebSocket) (ws : WebSocket) :
  seats_rows (storage w) = Some rs ->
  sockets w = pre ++ ws :: post ->
  all_open pre = true -> ws_open ws = false ->
  broadcastSeats w
  = (Thrown send_closed,
     emit_all (flat_map (push_events (snapshot rs)) pre ++ [Exec SelectSeats]) w).
Proof.
  intros H Hs Ho Hc. unfold broadcastSeats, bind at 1, getWebSockets.
  rewrite Hs. now apply forEach_push_closed.
Qed.

(* ================================================================== *)
(** ** [assignSeat]: what each branch does *)

(** The seat [sid] as [assignSeat] reads it from the table [rs]: [None] when
    the cursor is empty, otherwise the occupant of its first row. *)
Lemma seat_lookup_rows (sid : string) (w : World) (rs : list Row) :
  seats_rows (storage w) = Some rs ->
  seat_lookup sid w = hd_error (select_occupant sid rs).
Proof. intros H. unfold seat_lookup. now rewrite H. Qed.

Ltac start_assign H :=
  unfold assignSeat; unfold bind at 1;
  rewrite (sql_select_occupant_run _ _ _ H).

Lemma assignSeat_refused (sid who : string) (w : World) (rs : list Row) :
  seats_rows (storage w) = Some rs ->
  seat_lookup sid w <> Some None ->
  assignSeat sid who w
  = (Returned seat_not_available, emit_all [Exec (SelectOccupant sid)] w).
Proof.
  intros H Hn. rewrite (seat_lookup_rows sid w rs H) in Hn.
  start_assign H.
  destruct (hd_error (select_occupant sid rs)) as [[o|]|]; try reflexivity.
  now elim Hn.
Qed.

(** The world after the SELECT and the two UPDATE statements of a booking. *)
Lemma updates_run (sid who : string) (w : World) (rs : list Row) :
  seats_rows (storage w) = Some rs ->
  seat_lookup sid w = Some None ->
  assignSeat sid who w
  = (broadcastSeats ;;; ret (booked sid))
      (set_storage (book_storage who sid (storage w))
         (emit_all [Exec (SelectOccupant sid); Exec (UpdateClearOccupant who);
                    Exec (UpdateSetOccupant who sid)] w)).
Proof.
  intros H Hf. rewrite (seat_lookup_rows sid w rs H) in Hf.
  start_assign H. rewrite Hf.
  unfold bind at 1. unfold sql_clear_occupant.
  rewrite (sql_update_run _ _ _ rs) by exact H.
  unfold bind at 1. unfold sql_set_occupant.
  rewrite (sql_update_run _ _ _ (clear_occupant who rs))
    by (simpl; now apply seats_rows_alter).
  f_equal. unfold set_storage, emit_all, book_storage. simpl.
  now rewrite <- !app_assoc.
Qed.

Lemma assignSeat_booked (sid who : string) (w : World) (rs : list Row) :
  seats_rows (storage w) = Some rs ->
  seat_lookup sid w = Some None ->
  all_open (sockets w) = true ->
  assignSeat sid who w
  = (Returned (booked sid),
     set_storage (book_storage who sid (storage w))
       (emit_all ([Exec (SelectOccupant sid); Exec (UpdateClearOccupant who);
                   Exec (UpdateSetOccupant who sid)]
                  ++ flat_map (push_events (snapshot (book_rows who sid rs))) (sockets w))
          w)).
Proof.
  intros H Hf Ho. rewrite (updates_run sid who w rs H Hf).
  unfold bind at 1.
  rewrite (broadcastSeats_open _ (book_rows who sid rs))
    by (simpl; auto using seats_rows_book).
  unfold ret, set_storage, emit_all. simpl. now rewrite <- app_assoc.
Qed.

Lemma assignSeat_send_raises (sid who : string) (w : World) (rs : list Row)
      (pre post : list WebSocket) (ws : WebSocket) :
  seats_rows (storage w) = Some rs ->
  seat_lookup sid w = Some None ->
  sockets w = pre ++ ws :: post ->
  all_open pre = true -> ws_open ws = false ->
  assignSeat sid who w
  = (Thrown send_closed,
     set_storage (book_storage who sid (storage w))
       (emit_all ([Exec (SelectOccupant sid); Exec (UpdateClearOccupant who);
                   Exec (UpdateSetOccupant who sid)]
                  ++ flat_map (push_events (snapshot (book_rows who sid rs))) pre
                  ++ [Exec SelectSeats])
          w)).
Proof.
  intros H Hf Hs Ho Hc. rewrite (updates_run sid who w rs H Hf).
  unfold bind at 1.
  rewrite (broadcastSeats_closed _ (book_rows who sid rs) pre post ws)
    by (simpl; auto using seats_rows_book).
  unfold set_storage, emit_all. simpl. now rewrite <- app_assoc.
Qed.

(** The broadcast loop never writes to the database, whatever the sockets
    do. *)
Lemma forEach_push_storage (wss : list WebSocket) (w : World) :
  storage (snd (forEach wss (fun ws => payload <- getSeats ;; ws_send ws payload) w))
  = storage w.
Proof.
  revert w. induction wss as [|ws wss IH]; intros w; [reflexivity|].
  cbn [forEach]. unfold bind at 1.
  destruct ((payload <- getSeats ;; ws_send ws payload) w) as [[[]|e] w'] eqn:E.
  - rewrite IH.
    revert E. unfold bind, getSeats, sql_select_seats, bind, log, ret, ws_send, throw. simpl.
    destruct (seats_rows (storage w)); [destruct (ws_open ws)|]; intros [= <-]; reflexivity.
  - revert E. unfold bind, getSeats, sql_select_seats, bind, log, ret, ws_send, throw. simpl.
    destruct (seats_rows (storage w)); [destruct (ws_open ws)|]; intros [= _ <-]; reflexivity.
Qed.

Lemma broadcastSeats_storage (w : World) :
  storage (snd (broadcastSeats w)) = storage w.
Proof. unfold broadcastSeats, bind at 1, getWebSockets. apply forEach_push_storage. Qed.

(** The database after [assignSeat], whether or not the broadcast raises. *)
Lemma assignSeat_storage (sid who : string) (w : World) (rs : list Row) :
  seats_rows (storage w) = Some rs ->
  storage (snd (assignSeat sid who w))
  = match seat_lookup sid w with
    | Some None => book_storage who sid (storage w)
    | _ => storage w
    end.
Proof.
  intros H.
  destruct (seat_lookup sid w) as [[o|]|] eqn:E.
  - rewrite (assignSeat_refused sid who w rs H); [reflexivity|congruence].
  - rewrite (updates_run sid who w rs H E).
    unfold bind at 1.
    match goal with |- context [broadcastSeats ?x] =>
      pose proof (broadcastSeats_storage x) as Hb;
      destruct (broadcastSeats x) as [[[]|e] w'] end; simpl in *; exact Hb.
  - rewrite (assignSeat_refused sid who w rs H); [reflexivity|congruence].
Qed.

(* ================================================================== *)
(** ** Seeding *)

Lemma distinct_NoDup (xs : list string) : distinct xs = true -> NoDup xs.
Proof.
  induction xs as [|x xs IH]; simpl; intros H; [constructor|].
  apply andb_true_iff in H as [H1 H2]. constructor; auto.
  intros Hin. apply negb_true_iff in H1.
  assert (existsb (String.eqb x) xs = true) as E
    by (apply existsb_exists; exists x; split; [assumption|apply String.eqb_refl]).
  congruence.
Qed.

Lemma layout_NoDup : NoDup layout.
Proof. apply distinct_NoDup. vm_compute. reflexivity. Qed.

Lemma seeded_ids : map seatId seeded_rows = layout.
Proof. unfold seeded_rows. rewrite map_map. cbn [seatId]. apply map_id. Qed.

Lemma seeded_empty (r : Row) : In r seeded_rows -> occupant r = None.
Proof.
  unfold seeded_rows. intros H. apply in_map_iff in H as (s & <- & _). reflexivity.
Qed.

Lemma first_not_seats (t : Table) (rest : Storage) :
  seats_rows (t :: rest) = None -> String.eqb (name t) "seats" = false.
Proof.
  simpl. unfold is_seats, seats_name. now destruct (String.eqb (name t) "seats").
Qed.

(** On a database without a table [seats] (and with a table list that is not
    empty), [initializeSeats] returns, having created the table and inserted
    the 60 seats, all empty. *)
Lemma initializeSeats_fresh (db : Storage) (wss : list WebSocket) (tr : list Event) :
  db <> [] -> seats_rows db = None ->
  exists tr',
    initializeSeats (mkWorld db wss tr)
    = (Returned tt, mkWorld (mkTable "seats" seeded_rows :: db) wss tr').
Proof.
  intros Hne Hno. destruct db as [|t rest]; [contradiction|].
  pose proof (first_not_seats t rest Hno) as Hn.
  unfold initializeSeats. unfold bind at 1. unfold sql_table_list, bind at 1, log.
  cbn [emit storage map]. rewrite Hn.
  unfold bind at 1. unfold sql_create_seats, bind at 1, log.
  cbn [emit storage]. rewrite Hno.
  unfold set_storage. cbn [storage sockets trace].
  eexists. vm_compute. reflexivity.
Qed.

Lemma construct_fresh (db : Storage) :
  db <> [] -> seats_rows db = None ->
  fst (construct db) = Returned tt
  /\ storage (snd (construct db)) = mkTable "seats" seeded_rows :: db.
Proof.
  intros H1 H2. unfold construct.
  destruct (initializeSeats_fresh db [] [] H1 H2) as (tr' & ->). auto.
Qed.

(** When [seats] is the first table [PRAGMA table_list] reports,
    [initializeSeats] returns at once. *)
Lemma initializeSeats_seats_first (w : World) (t : Table) (rest : Storage) :
  storage w = t :: rest -> name t = "seats" ->
  initializeSeats w = (Returned tt, emit_all [Exec PragmaTableList] w).
Proof.
  intros Hs Hn. unfold initializeSeats, bind at 1, sql_table_list, bind at 1, log.
  cbn [emit storage]. rewrite Hs. cbn [map]. rewrite Hn. reflexivity.
Qed.

(** When another table comes first and [seats] already has the row ['1A'],
    the existence test fails, CREATE TABLE IF NOT EXISTS does nothing, and
    the first INSERT raises. *)
Lemma initializeSeats_seats_later (w : World) (t : Table) (rest : Storage) (rs : list Row) :
  storage w = t :: rest -> String.eqb (name t) "seats" = false ->
  seats_rows rest = Some rs -> has_seat "1A" rs = true ->
  initializeSeats w
  = (Thrown unique_failed,
     emit_all [Exec PragmaTableList; Exec CreateTableSeats; Exec (InsertSeat "1A")] w).
Proof.
  intros Hs Hn Hr H1. destruct w as [s wss tr]. cbn [storage] in Hs. subst s.
  assert (seats_rows (t :: rest) = Some rs) as Hw.
  { simpl. unfold is_seats, seats_name. now rewrite Hn. }
  unfold initializeSeats, bind at 1, sql_table_list, bind at 1, log.
  cbn [emit storage map]. rewrite Hn.
  unfold bind at 1. unfold sql_create_seats, bind at 1, log.
  cbn [emit storage]. rewrite Hw.
  cbn [seq forEach]. unfold bind at 1. unfold bind at 1.
  unfold sql_insert_seat, bind at 1, log. cbn [emit storage]. rewrite Hw.
  change (seatNumber_of 1 0) with "1A". rewrite H1.
  unfold emit_all, emit. cbn [storage sockets trace]. now rewrite <- !app_assoc.
Qed.

(* ================================================================== *)
(** ** The two UPDATE statements and the table's invariants *)

Lemma holds_iff (who : string) (r : Row) : holds who r = true <-> occupant r = Some who.
Proof.
  unfold holds. destruct (occupant r) as [o|].
  - rewrite String.eqb_eq. split; congruence.
  - split; discriminate.
Qed.

Lemma clear_occupant_ids (who : string) (rs : list Row) :
  map seatId (clear_occupant who rs) = map seatId rs.
Proof.
  unfold clear_occupant. rewrite map_map. apply map_ext.
  intros r. now destruct (holds who r).
Qed.

Lemma set_occupant_ids (who sid : string) (rs : list Row) :
  map seatId (set_occupant who sid rs) = map seatId rs.
Proof.
  unfold set_occupant. rewrite map_map. apply map_ext.
  intros r. now destruct (String.eqb (seatId r) sid).
Qed.

Lemma book_rows_ids (who sid : string) (rs : list Row) :
  map seatId (book_rows who sid rs) = map seatId rs.
Proof. unfold book_rows. now rewrite set_occupant_ids, clear_occupant_ids. Qed.

(** A row after the first UPDATE, in terms of the row it comes from. *)
Lemma clear_occupant_row (who : string) (rs : list Row) (r' : Row) :
  In r' (clear_occupant who rs) ->
  exists r, In r rs /\ seatId r' = seatId r
            /\ occupant r' = (if holds who r then None else occupant r).
Proof.
  unfold clear_occupant. intros H. apply in_map_iff in H as (r & <- & Hin).
  exists r. destruct (holds who r); auto.
Qed.

(** A row after both UPDATEs: it is the requested seat and now holds [who], or
    it is another seat, emptied if [who] had it and untouched otherwise. *)
Lemma book_rows_row (who sid : string) (rs : list Row) (r' : Row) :
  In r' (book_rows who sid rs) ->
  exists r, In r rs /\ seatId r' = seatId r
            /\ ((seatId r = sid /\ occupant r' = Some who)
                \/ (seatId r <> sid
                    /\ occupant r' = (if holds who r then None else occupant r))).
Proof.
  unfold book_rows, set_occupant. intros H.
  apply in_map_iff in H as (r1 & <- & Hin).
  apply clear_occupant_row in Hin as (r & Hin & Hid & Hocc).
  exists r. split; [assumption|].
  destruct (String.eqb (seatId r1) sid) eqn:E; simpl.
  - apply String.eqb_eq in E. split; [assumption|]. left. split; congruence.
  - apply String.eqb_neq in E. split; [assumption|]. right. split; congruence.
Qed.

Lemma clear_occupant_unique (who : string) (rs : list Row) :
  occupant_unique rs -> occupant_unique (clear_occupant who rs).
Proof.
  intros U r1' r2' o H1 H2 O1 O2.
  apply clear_occupant_row in H1 as (r1 & I1 & -> & E1).
  apply clear_occupant_row in H2 as (r2 & I2 & -> & E2).
  rewrite E1 in O1. rewrite E2 in O2.
  destruct (holds who r1); [discriminate|].
  destruct (holds who r2); [discriminate|].
  exact (U r1 r2 o I1 I2 O1 O2).
Qed.

Lemma book_rows_unique (who sid : string) (rs : list Row) :
  occupant_unique rs -> occupant_unique (book_rows who sid rs).
Proof.
  intros U r1' r2' o H1 H2 O1 O2.
  apply book_rows_row in H1 as (r1 & I1 & -> & C1).
  apply book_rows_row in H2 as (r2 & I2 & -> & C2).
  assert (forall r, holds who r = false -> occupant r = Some who -> False) as Hh.
  { intros r Hf Ho. apply holds_iff in Ho. congruence. }
  destruct C1 as [[S1 E1]|[S1 E1]], C2 as [[S2 E2]|[S2 E2]];
    rewrite E1 in O1; rewrite E2 in O2.
  - congruence.
  - destruct (holds who r2) eqn:Hr2; [discriminate|].
    exfalso. apply (Hh r2 Hr2). congruence.
  - destruct (holds who r1) eqn:Hr1; [discriminate|].
    exfalso. apply (Hh r1 Hr1). congruence.
  - destruct (holds who r1); [discriminate|].
    destruct (holds who r2); [discriminate|].
    exact (U r1 r2 o I1 I2 O1 O2).
Qed.

(** The seat [a] after a booking of [sid] for [who], as the program would
    read it. *)
Lemma lookup_book_rows (who sid a : string) (rs : list Row) :
  hd_error (select_occupant a (book_rows who sid rs))
  = match hd_error (select_occupant a rs) with
    | None => None
    | Some o =>
        Some (if String.eqb a sid then Some who
              else match o with
                   | Some x => if String.eqb x who then None else Some x
                   | None => None
                   end)
    end.
Proof.
  unfold select_occupant, book_rows, set_occupant, clear_occupant.
  induction rs as [|r rs IH]; [reflexivity|].
  cbn [map filter].
  destruct (holds who r) eqn:Hh; cbn [seatId].
  - destruct (String.eqb (seatId r) sid) eqn:Es; cbn [seatId];
      destruct (String.eqb (seatId r) a) eqn:Ea; try exact IH; cbn [map hd_error occupant].
    + apply String.eqb_eq in Es, Ea. subst. now rewrite String.eqb_refl.
    + apply String.eqb_eq in Ea. subst a. rewrite Es.
      unfold holds in Hh. destruct (occupant r); [now rewrite Hh|discriminate].
  - destruct (String.eqb (seatId r) sid) eqn:Es; cbn [seatId];
      destruct (String.eqb (seatId r) a) eqn:Ea; try exact IH; cbn [map hd_error occupant].
    + apply String.eqb_eq in Es, Ea. subst. now rewrite String.eqb_refl.
    + apply String.eqb_eq in Ea. subst a. rewrite Es.
      unfold holds in Hh. destruct (occupant r); [now rewrite Hh|reflexivity].
Qed.

Lemma select_absent (sid : string) (rs : list Row) :
  ~ In sid (map seatId rs) -> select_occupant sid rs = [].
Proof.
  unfold select_occupant. induction rs as [|r rs IH]; [reflexivity|].
  cbn [map filter In]. intros H.
  destruct (String.eqb (seatId r) sid) eqn:E.
  - apply String.eqb_eq in E. tauto.
  - apply IH. tauto.
Qed.

(** One booking keeps the seats and occupant uniqueness, whatever its
    outcome. *)
Lemma after_booking_invariant (w : World) (b : Booking) (rs : list Row) :
  seats_rows (storage w) = Some rs -> occupant_unique rs ->
  exists rs', seats_rows (storage (after_booking w b)) = Some rs'
              /\ map seatId rs' = map seatId rs /\ occupant_unique rs'.
Proof.
  intros H U. unfold after_booking.
  rewrite (assignSeat_storage (fst b) (snd b) w rs H).
  destruct (seat_lookup (fst b) w) as [[o|]|].
  - exists rs. auto.
  - exists (book_rows (snd b) (fst b) rs).
    auto using seats_rows_book, book_rows_ids, book_rows_unique.
  - exists rs. auto.
Qed.

Lemma run_bookings_invariant (bs : list Booking) (w : World) (rs : list Row) :
  seats_rows (storage w) = Some rs -> occupant_unique rs ->
  exists rs', seats_rows (storage (run_bookings bs w)) = Some rs'
              /\ map seatId rs' = map seatId rs /\ occupant_unique rs'.
Proof.
  revert w rs. induction bs as [|b bs IH]; intros w rs H U.
  - exists rs. auto.
  - destruct (after_booking_invariant w b rs H U) as (rs1 & H1 & I1 & U1).
    destruct (IH (after_booking w b) rs1 H1 U1) as (rs2 & H2 & I2 & U2).
    exists rs2. simpl. repeat split; auto. congruence.
Qed.

Lemma occupant_unique_tail (r : Row) (rs : list Row) :
  occupant_unique (r :: rs) -> occupant_unique rs.
Proof.
  intros U r1 r2 o H1 H2. apply U; now right.
Qed.

(** The enumeration decides occupant uniqueness. *)
Lemma occupants_distinct_iff (rs : list Row) :
  occupants_distinct rs = true <-> occupant_unique rs.
Proof.
  induction rs as [|r rs IH]; cbn [occupants_distinct].
  - split; [intros _ r1 r2 o []|reflexivity].
  - rewrite andb_true_iff, IH. split.
    + intros [Hhd Htl] r1 r2 o [<-|H1] [<-|H2] O1 O2; try reflexivity.
      * rewrite O1 in Hhd. apply negb_true_iff in Hhd.
        destruct (String.eqb_spec (seatId r2) (seatId r)) as [E|E]; [now symmetry|].
        exfalso. rewrite <- not_true_iff_false in Hhd. apply Hhd.
        apply existsb_exists. exists r2. split; [assumption|].
        apply andb_true_iff. split; [now apply holds_iff|].
        now apply negb_true_iff, String.eqb_neq.
      * rewrite O2 in Hhd. apply negb_true_iff in Hhd.
        destruct (String.eqb_spec (seatId r1) (seatId r)) as [E|E]; [assumption|].
        exfalso. rewrite <- not_true_iff_false in Hhd. apply Hhd.
        apply existsb_exists. exists r1. split; [assumption|].
        apply andb_true_iff. split; [now apply holds_iff|].
        now apply negb_true_iff, String.eqb_neq.
      * exact (Htl r1 r2 o H1 H2 O1 O2).
    + intros U. split; [|exact (occupant_unique_tail r rs U)].
      destruct (occupant r) as [o|] eqn:O; [|reflexivity].
      apply negb_true_iff, not_true_iff_false. intros Hex.
      apply existsb_exists in Hex as (r' & Hin & Hb).
      apply andb_true_iff in Hb as [Hh Hne].
      apply holds_iff in Hh. apply negb_true_iff, String.eqb_neq in Hne.
      apply Hne. apply (U r' r o); auto; [now right|now left].
Qed.

Lemma seeded_unique : occupant_unique seeded_rows.
Proof.
  intros r1 r2 o H1 _ O1 _. rewrite (seeded_empty r1 H1) in O1. discriminate.
Qed.

(** *** [assignSeat] on values that are not strings *)

Lemma set_occupant_null_ids (sid : string) (rs : list Row) :
  map seatId (set_occupant_null sid rs) = map seatId rs.
Proof.
  unfold set_occupant_null. rewrite map_map. apply map_ext.
  intros r. now destruct (String.eqb (seatId r) sid).
Qed.

Lemma set_occupant_null_unique (sid : string) (rs : list Row) :
  occupant_unique rs -> occupant_unique (set_occupant_null sid rs).
Proof.
  assert (forall r' o, In r' (set_occupant_null sid rs) -> occupant r' = Some o -> In r' rs)
    as Hin.
  { intros r' o H O. unfold set_occupant_null in H.
    apply in_map_iff in H as (r & <- & Hr).
    destruct (String.eqb (seatId r) sid); [discriminate O|exact Hr]. }
  intros U r1 r2 o H1 H2 O1 O2.
  exact (U r1 r2 o (Hin _ _ H1 O1) (Hin _ _ H2 O2) O1 O2).
Qed.

(** The seat [a] after [UPDATE seats SET occupant = NULL WHERE seatId = sid]. *)
Lemma lookup_set_occupant_null (sid a : string) (rs : list Row) :
  hd_error (select_occupant a (set_occupant_null sid rs))
  = match hd_error (select_occupant a rs) with
    | None => None
    | Some o => Some (if String.eqb a sid then None else o)
    end.
Proof.
  unfold select_occupant, set_occupant_null.
  induction rs as [|r rs IH]; [reflexivity|].
  cbn [map filter].
  destruct (String.eqb (seatId r) sid) eqn:Es; cbn [seatId];
    destruct (String.eqb (seatId r) a) eqn:Ea; try exact IH; cbn [map hd_error occupant].
  - apply String.eqb_eq in Es, Ea. subst. now rewrite String.eqb_refl.
  - apply String.eqb_eq in Ea. subst a. now rewrite Es.
Qed.

(** On values bound as texts, [assignSeat_any] does what [assignSeat] does on
    the texts; the confirmation prints the seat as the template literal does. *)
Lemma assignSeat_any_text (sn nm : JsValue) (sid who : string) (w : World) :
  binding sn = BindText sid -> binding nm = BindText who ->
  assignSeat_any sn nm w
  = (match fst (assignSeat sid who w) with
     | Returned r =>
         Returned (if Nat.eqb (status r) 200
                   then text_response ("Seat " ++ template_text sn ++ " booked successfully") 200
                   else r)
     | Thrown e => Thrown e
     end,
     snd (assignSeat sid who w)).
Proof.
  intros Hs Hn. unfold assignSeat_any, assignSeat. rewrite Hs, Hn.
  unfold sql_select_occupant_bound, sql_clear_occupant_bound, sql_set_occupant_bound.
  unfold bind.
  destruct (sql_select_occupant sid w) as [[c|e] w1]; [|reflexivity].
  destruct (hd_error c) as [[o|]|]; try reflexivity.
  destruct (sql_clear_occupant who w1) as [[[]|e] w2]; [|reflexivity].
  destruct (sql_set_occupant who sid w2) as [[[]|e] w3]; [|reflexivity].
  destruct (broadcastSeats w3) as [[[]|e] w4]; reflexivity.
Qed.

Lemma assignSeat_any_strings (sid who : string) (w : World) :
  assignSeat_any (js_string sid) (js_string who) w = assignSeat sid who w.
Proof. reflexivity. Qed.

Lemma assignSeat_any_refused (sn nm : JsValue) (sid : string) (w : World) (rs : list Row) :
  binding sn = BindText sid ->
  seats_rows (storage w) = Some rs ->
  seat_lookup sid w <> Some None ->
  assignSeat_any sn nm w
  = (Returned seat_not_available, emit_all [Exec (SelectOccupant sid)] w).
Proof.
  intros Hs H Hn. rewrite (seat_lookup_rows sid w rs H) in Hn.
  unfold assignSeat_any. rewrite Hs. unfold sql_select_occupant_bound, bind at 1.
  rewrite (sql_select_occupant_run _ _ _ H).
  destruct (hd_error (select_occupant sid rs)) as [[o|]|]; try reflexivity.
  now elim Hn.
Qed.

(** A seat identifier bound as NULL matches no row. *)
Lemma assignSeat_any_null_key (sn nm : JsValue) (w : World) (rs : list Row) :
  binding sn = BindNull ->
  seats_rows (storage w) = Some rs ->
  assignSeat_any sn nm w
  = (Returned seat_not_available, emit_all [Exec SelectOccupantNull] w).
Proof.
  intros Hs H. unfold assignSeat_any. rewrite Hs.
  unfold sql_select_occupant_bound, bind, log. cbn [emit storage]. now rewrite H.
Qed.

(** A name bound as NULL on a free seat: the first UPDATE matches no row, the
    second writes NULL into the seat, and the broadcast follows. *)
Lemma assignSeat_any_null_name (sn nm : JsValue) (sid : string) (w : World)
      (rs : list Row) :
  binding sn = BindText sid -> binding nm = BindNull ->
  seats_rows (storage w) = Some rs ->
  seat_lookup sid w = Some None ->
  assignSeat_any sn nm w
  = (broadcastSeats ;;;
     ret (text_response ("Seat " ++ template_text sn ++ " booked successfully") 200))
      (set_storage (alter_seats (set_occupant_null sid) (storage w))
         (emit_all [Exec (SelectOccupant sid); Exec UpdateClearOccupantNull;
                    Exec (UpdateSetOccupantWith None (Some sid))] w)).
Proof.
  intros Hs Hn H Hf. rewrite (seat_lookup_rows sid w rs H) in Hf.
  unfold assignSeat_any. rewrite Hs, Hn.
  unfold sql_select_occupant_bound, bind at 1.
  rewrite (sql_select_occupant_run _ _ _ H), Hf.
  unfold bind at 1. unfold sql_clear_occupant_bound.
  rewrite (sql_update_run _ _ _ rs) by exact H.
  unfold bind at 1. unfold sql_set_occupant_bound.
  cbn [storage emit_all set_storage].
  rewrite (alter_seats_id (fun rs0 => rs0) (storage w) rs H eq_refl).
  rewrite (sql_update_run _ _ _ rs) by exact H.
  f_equal. unfold set_storage, emit_all. simpl.
  now rewrite <- !app_assoc.
Qed.

(** What a call of [assignSeat_any] can do to the database: nothing, what a
    booking of two texts does, or write NULL into the seat it found free. *)
Lemma assignSeat_any_effect (sn nm : JsValue) (w : World) :
  storage (snd (assignSeat_any sn nm w)) = storage w
  \/ exists sid,
       binding sn = BindText sid /\ seat_lookup sid w = Some None
       /\ ((exists who, binding nm = BindText who
                        /\ storage (snd (assignSeat_any sn nm w))
                           = book_storage who sid (storage w))
           \/ (binding nm = BindNull
               /\ storage (snd (assignSeat_any sn nm w))
                  = alter_seats (set_occupant_null sid) (storage w))).
Proof.
  destruct (binding sn) as [|sid|] eqn:Hs.
  - left. unfold assignSeat_any. rewrite Hs.
    unfold sql_select_occupant_bound, bind, log. cbn [emit storage].
    now destruct (seats_rows (storage w)).
  - destruct (seats_rows (storage w)) as [rs|] eqn:H.
    + destruct (seat_lookup sid w) as [[o|]|] eqn:Hl.
      * left. rewrite (assignSeat_any_refused sn nm sid w rs Hs H); [reflexivity|congruence].
      * destruct (binding nm) as [|who|] eqn:Hn.
        -- right. exists sid. split; [reflexivity|]. split; [exact Hl|]. right.
           split; [reflexivity|].
           rewrite (assignSeat_any_null_name sn nm sid w rs Hs Hn H Hl).
           unfold bind at 1.
           match goal with |- context [broadcastSeats ?x] =>
             pose proof (broadcastSeats_storage x) as Hb;
             destruct (broadcastSeats x) as [[[]|e] w'] end; simpl in *; exact Hb.
        -- right. exists sid. split; [reflexivity|]. split; [exact Hl|]. left.
           exists who. split; [reflexivity|].
           rewrite (assignSeat_any_text sn nm sid who w Hs Hn). cbn [snd].
           now rewrite (assignSeat_storage sid who w rs H), Hl.
        -- left. rewrite (seat_lookup_rows sid w rs H) in Hl.
           unfold assignSeat_any. rewrite Hs, Hn.
           unfold sql_select_occupant_bound, bind at 1.
           rewrite (sql_select_occupant_run _ _ _ H), Hl. reflexivity.
      * left. rewrite (assignSeat_any_refused sn nm sid w rs Hs H); [reflexivity|congruence].
    + left. unfold assignSeat_any. rewrite Hs.
      unfold sql_select_occupant_bound, sql_select_occupant, bind, log.
      cbn [emit storage]. now rewrite H.
  - left. unfold assignSeat_any. now rewrite Hs.
Qed.

(** How [fetch] routes: a request is a booking handed to [assignSeat_any], or
    it leaves the database alone. *)
Lemma fetch_effect (req : Request) (w : World) :
  (exists sn nm, body req = JsonFields sn nm /\ fetch req w = assignSeat_any sn nm w)
  \/ storage (snd (fetch req w)) = storage w.
Proof.
  unfold fetch.
  destruct (String.eqb (method req) "GET" && String.eqb (pathname req) "/seats").
  - right. unfold bind at 1, getSeats, sql_select_seats, bind, log, ret.
    cbn [emit storage]. now destruct (seats_rows (storage w)).
  - destruct (String.eqb (method req) "POST" && String.eqb (pathname req) "/book-seat").
    + unfold request_json. destruct (body req) as [| |sn nm] eqn:Eb.
      * now right.
      * now right.
      * left. now exists sn, nm.
    + right. now destruct (is_upgrade req).
Qed.

(** A request keeps the seats and occupant uniqueness. *)
Lemma fetch_invariant (req : Request) (w : World) (rs : list Row) :
  seats_rows (storage w) = Some rs -> occupant_unique rs ->
  exists rs', seats_rows (storage (snd (fetch req w))) = Some rs'
              /\ map seatId rs' = map seatId rs /\ occupant_unique rs'.
Proof.
  intros H U.
  destruct (fetch_effect req w) as [(sn & nm & _ & Ef)|Es];
    [rewrite Ef|rewrite Es; exists rs; auto].
  destruct (assignSeat_any_effect sn nm w)
    as [Es|(sid & _ & _ & [(who & _ & Es)|(_ & Es)])]; rewrite Es.
  - exists rs. auto.
  - exists (book_rows who sid rs).
    auto using seats_rows_book, book_rows_ids, book_rows_unique.
  - exists (set_occupant_null sid rs).
    auto using seats_rows_alter, set_occupant_null_ids, set_occupant_null_unique.
Qed.

Lemma run_requests_invariant (reqs : list Request) (w : World) (rs : list Row) :
  seats_rows (storage w) = Some rs -> occupant_unique rs ->
  exists rs', seats_rows (storage (run_requests reqs w)) = Some rs'
              /\ map seatId rs' = map seatId rs /\ occupant_unique rs'.
Proof.
  revert w rs. induction reqs as [|req reqs IH]; intros w rs H U.
  - exists rs. auto.
  - destruct (fetch_invariant req w rs H U) as (rs1 & H1 & I1 & U1).
    destruct (IH (snd (fetch req w)) rs1 H1 U1) as (rs2 & H2 & I2 & U2).
    exists rs2. cbn [run_requests fold_left]. repeat split; auto. congruence.
Qed.

(** The worlds of a partition whose database the constructor has seeded, after
    any sequence of bookings: the 60 seats of the layout, occupants unique. *)
Lemma seeded_run (db : Storage) (w : World) (bs : list Booking) :
  db <> [] -> seats_rows db = None ->
  storage w = storage (snd (construct db)) ->
  exists rs, seats_rows (storage (run_bookings bs w)) = Some rs
             /\ map seatId rs = layout /\ occupant_unique rs.
Proof.
  intros H1 H2 Hw.
  destruct (construct_fresh db H1 H2) as (_ & Hs). rewrite Hs in Hw.
  assert (seats_rows (storage w) = Some seeded_rows) as H by (now rewrite Hw).
  destruct (run_bookings_invariant bs w seeded_rows H seeded_unique) as (rs & A & B & C).
  exists rs. rewrite seeded_ids in B. auto.
Qed.

(* ================================================================== *)
(** ** Properties of the booking engine *)

(** C1. Occupant uniqueness is an invariant.  The constructor seeds a database
    that has no table [seats]; in every world on that database, after every
    sequence of bookings (so after each of its prefixes, and whether the
    broadcast of a booking returned or raised), the table has no two rows with
    the same identifier and no two seats with the same occupant; the same
    holds between the two UPDATE statements of any further booking, when the
    occupant's seats have been cleared and the requested one is not yet
    assigned. *)
Theorem occupant_uniqueness_invariant (db : Storage) (w : World) (bs : list Booking) :
  db <> [] -> seats_rows db = None ->
  storage w = storage (snd (construct db)) ->
  fst (construct db) = Returned tt
  /\ exists rs, seats_rows (storage (run_bookings bs w)) = Some rs
       /\ key_unique rs
       /\ occupant_unique rs
       /\ forall who, occupant_unique (clear_occupant who rs).
Proof.
  intros H1 H2 Hw. split; [apply (construct_fresh db H1 H2)|].
  destruct (seeded_run db w bs H1 H2 Hw) as (rs & A & B & C).
  exists rs. repeat split; auto.
  - unfold key_unique. rewrite B. apply layout_NoDup.
  - intros who. now apply clear_occupant_unique.
Qed.

Lemma occupant_uniqueness_invariant_witness :
  fst (construct fresh_db) = Returned tt
  /\ exists rs,
       seats_rows (storage (run_bookings [("1A", "Alice"); ("2A", "Alice"); ("1A", "Bob")]
                              (snd (construct fresh_db)))) = Some rs
       /\ key_unique rs
       /\ occupant_unique rs
       /\ forall who, occupant_unique (clear_occupant who rs).
Proof.
  apply (occupant_uniqueness_invariant fresh_db (snd (construct fresh_db))
           [("1A", "Alice"); ("2A", "Alice"); ("1A", "Bob")]).
  - discriminate.
  - reflexivity.
  - reflexivity.
Defined.

(** C3. Self-rebooking is rejected.  Booking a seat whose occupant is not
    empty returns status 400 with the text of the refusal, for every
    requesting occupant and in particular for the one who holds the seat;
    only the SELECT has run. *)
Theorem occupied_seat_rejected (w : World) (sid holder : string) :
  seat_lookup sid w = Some (Some holder) ->
  (forall who,
     assignSeat sid who w
     = (Returned (text_response "Seat not available" 400),
        emit_all [Exec (SelectOccupant sid)] w))
  /\ assignSeat sid holder w
     = (Returned (text_response "Seat not available" 400),
        emit_all [Exec (SelectOccupant sid)] w).
Proof.
  intros Hl.
  destruct (seats_rows (storage w)) as [rs|] eqn:H;
    [|unfold seat_lookup in Hl; rewrite H in Hl; discriminate].
  assert (forall who,
     assignSeat sid who w
     = (Returned (text_response "Seat not available" 400),
        emit_all [Exec (SelectOccupant sid)] w)) as Hall.
  { intros who. apply (assignSeat_refused sid who w rs H). congruence. }
  split; [exact Hall|apply Hall].
Qed.

Lemma occupied_seat_rejected_witness :
  (forall who,
     assignSeat "1A" who demo_world
     = (Returned (text_response "Seat not available" 400),
        emit_all [Exec (SelectOccupant "1A")] demo_world))
  /\ assignSeat "1A" "Alice" demo_world
     = (Returned (text_response "Seat not available" 400),
        emit_all [Exec (SelectOccupant "1A")] demo_world).
Proof.
  apply (occupied_seat_rejected demo_world "1A" "Alice"). reflexivity.
Defined.

(** C7. A seat that is not in the seeded layout cannot be booked.  In every
    world of a seeded partition, after any bookings, a request for an
    identifier outside the 60 of the layout returns status 400, and the
    database and the sockets are as before: only the SELECT has run. *)
Theorem unknown_seat_rejected (db : Storage) (w : World) (bs : list Booking)
        (sid who : string) :
  db <> [] -> seats_rows db = None ->
  storage w = storage (snd (construct db)) ->
  ~ In sid layout ->
  let w' := run_bookings bs w in
  assignSeat sid who w'
  = (Returned (text_response "Seat not available" 400),
     emit_all [Exec (SelectOccupant sid)] w')
  /\ storage (snd (assignSeat sid who w')) = storage w'.
Proof.
  intros H1 H2 Hw Hnot w'.
  destruct (seeded_run db w bs H1 H2 Hw) as (rs & A & B & _). fold w' in A.
  assert (seat_lookup sid w' = None) as Hl.
  { rewrite (seat_lookup_rows sid w' rs A), select_absent; [reflexivity|].
    now rewrite B. }
  assert (assignSeat sid who w'
          = (Returned (text_response "Seat not available" 400),
             emit_all [Exec (SelectOccupant sid)] w')) as E.
  { apply (assignSeat_refused sid who w' rs A). congruence. }
  split; [exact E|]. now rewrite E.
Qed.

Lemma unknown_seat_rejected_witness :
  let w' := run_bookings [("1A", "Alice")] (snd (construct fresh_db)) in
  assignSeat "9Z" "Bob" w'
  = (Returned (text_response "Seat not available" 400),
     emit_all [Exec (SelectOccupant "9Z")] w')
  /\ storage (snd (assignSeat "9Z" "Bob" w')) = storage w'.
Proof.
  apply (unknown_seat_rejected fresh_db (snd (construct fresh_db)) [("1A", "Alice")] "9Z" "Bob").
  - discriminate.
  - reflexivity.
  - reflexivity.
  - vm_compute. intuition discriminate.
Defined.

(** A call of [assignSeat] that returns status 400 is one that found the seat
    missing or occupied. *)
Lemma status_400_is_refusal (w : World) (rs : list Row) (sid who : string)
      (resp : Response) (w' : World) :
  seats_rows (storage w) = Some rs ->
  assignSeat sid who w = (Returned resp, w') -> status resp = 400 ->
  seat_lookup sid w = None \/ exists o, seat_lookup sid w = Some (Some o).
Proof.
  intros H E Hs.
  destruct (seat_lookup sid w) as [[o|]|] eqn:Hl; [right; now exists o| |now left].
  rewrite (updates_run sid who w rs H Hl) in E.
  unfold bind at 1 in E.
  destruct (broadcastSeats _) as [[[]|e] w1]; [|discriminate].
  unfold ret in E. injection E as <- <-. discriminate.
Qed.

(** C10. Failed bookings are atomic and silent.  When the seat is not found or
    is occupied, [assignSeat] returns status 400 with the body
    [Seat not available], the same in both cases, and all it has done is the
    SELECT: no UPDATE, no snapshot query, no send; the database and the sockets
    are unchanged. *)
Theorem failed_booking_atomic_silent (w : World) (rs : list Row) (sid who : string) :
  seats_rows (storage w) = Some rs ->
  seat_lookup sid w = None \/ (exists o, seat_lookup sid w = Some (Some o)) ->
  exists w',
    assignSeat sid who w = (Returned (text_response "Seat not available" 400), w')
    /\ storage w' = storage w
    /\ sockets w' = sockets w
    /\ trace w' = trace w ++ [Exec (SelectOccupant sid)].
Proof.
  intros H Hc. exists (emit_all [Exec (SelectOccupant sid)] w).
  split; [|repeat split].
  apply (assignSeat_refused sid who w rs H).
  destruct Hc as [Hc|[o Hc]]; congruence.
Qed.

Lemma failed_booking_atomic_silent_witness :
  exists w',
    assignSeat "1A" "Bob" demo_world
    = (Returned (text_response "Seat not available" 400), w')
    /\ storage w' = storage demo_world
    /\ sockets w' = sockets demo_world
    /\ trace w' = trace demo_world ++ [Exec (SelectOccupant "1A")].
Proof.
  apply (failed_booking_atomic_silent demo_world
           [mkRow "1A" (Some "Alice"); mkRow "1B" None; mkRow "2A" None] "1A" "Bob").
  - reflexivity.
  - right. exists "Alice". reflexivity.
Defined.

(* ================================================================== *)
(** ** Properties of the broadcast *)

Lemma push_sends (p : string) (wss : list WebSocket) :
  filter is_send (flat_map (push_events p) wss)
  = map (fun ws => Send (ws_id ws) p) wss.
Proof. induction wss as [|ws wss IH]; simpl; congruence. Qed.


Lemma push_updates (p : string) (wss : list WebSocket) :
  filter is_update (flat_map (push_events p) wss) = [].
Proof. induction wss as [|ws wss IH]; simpl; congruence. Qed.







(** When the first registered socket has closed, a booking of a free seat
    raises, and the second socket, which is open, is sent nothing. *)
Lemma closed_socket_fails_booking :
  fst (assignSeat "1B" "Bob" demo_world_closed) = Thrown send_closed
  /\ sends_to 2 (trace (snd (assignSeat "1B" "Bob" demo_world_closed))) = []
  /\ seat_lookup "1B" (snd (assignSeat "1B" "Bob" demo_world_closed)) = Some (Some "Bob").
Proof. vm_compute. repeat split. Qed.

(** C9, as the code has it.  Delivery is not isolated: the loop of
    [broadcastSeats] has no handler, so it stops at the first registered socket
    whose send raises.  The sockets before it have been sent the snapshot, it
    and the sockets after it are sent nothing, and the exception leaves
    [broadcastSeats] and [assignSeat]: the booking has applied its two UPDATEs
    and returns no response. *)
Theorem failed_send_stops_broadcast (w : World) (rs : list Row)
        (pre post : list WebSocket) (ws : WebSocket) (sid who : string) :
  seats_rows (storage w) = Some rs ->
  sockets w = pre ++ ws :: post ->
  all_open pre = true -> ws_open ws = false ->
  seat_lookup sid w = Some None ->
  (exists evs,
     broadcastSeats w = (Thrown send_closed, emit_all evs w)
     /\ filter is_send evs = map (fun s => Send (ws_id s) (snapshot rs)) pre)
  /\ (exists evs,
        assignSeat sid who w
        = (Thrown send_closed,
           set_storage (book_storage who sid (storage w)) (emit_all evs w))
        /\ filter is_update evs
           = [Exec (UpdateClearOccupant who); Exec (UpdateSetOccupant who sid)]
        /\ filter is_send evs
           = map (fun s => Send (ws_id s) (snapshot (book_rows who sid rs))) pre).
Proof.
  intros H Hs Ho Hc Hl. split.
  - eexists. split; [apply (broadcastSeats_closed w rs pre post ws H Hs Ho Hc)|].
    rewrite filter_app, push_sends. cbn. apply app_nil_r.
  - eexists. split; [apply (assignSeat_send_raises sid who w rs pre post ws H Hl Hs Ho Hc)|].
    rewrite !filter_app, push_sends, push_updates.
    split; [reflexivity|]. cbn [filter is_send app]. apply app_nil_r.
Qed.

Lemma failed_send_stops_broadcast_witness :
  let rs := [mkRow "1A" (Some "Alice"); mkRow "1B" None; mkRow "2A" None] in
  let w := demo_world_closed in
  (exists evs,
     broadcastSeats w = (Thrown send_closed, emit_all evs w)
     /\ filter is_send evs = map (fun s => Send (ws_id s) (snapshot rs)) [])
  /\ (exists evs,
        assignSeat "1B" "Bob" w
        = (Thrown send_closed,
           set_storage (book_storage "Bob" "1B" (storage w)) (emit_all evs w))
        /\ filter is_update evs
           = [Exec (UpdateClearOccupant "Bob"); Exec (UpdateSetOccupant "Bob" "1B")]
        /\ filter is_send evs
           = map (fun s => Send (ws_id s) (snapshot (book_rows "Bob" "1B" rs))) []).
Proof.
  apply (failed_send_stops_broadcast demo_world_closed
           [mkRow "1A" (Some "Alice"); mkRow "1B" None; mkRow "2A" None]
           [] [mkWebSocket 2 true] (mkWebSocket 1 false) "1B" "Bob").
  - reflexivity.
  - reflexivity.
  - reflexivity.
  - reflexivity.
  - reflexivity.
Defined.

(* ================================================================== *)
(** ** Properties of the request handler *)

Lemma fetch_get_seats (w : World) (rs : list Row) :
  seats_rows (storage w) = Some rs ->
  fetch get_seats_request w
  = (Returned (mkResponse (Some (JSON.stringify_string (snapshot rs))) 200
                 [("Content-Type", "application/json")] None),
     emit_all [Exec SelectSeats] w).
Proof.
  intros H. unfold fetch. cbn [get_seats_request method pathname].
  cbn [String.eqb Ascii.eqb Bool.eqb andb]. unfold bind at 1.
  now rewrite (getSeats_run w rs H).
Qed.

(** The snapshot is the text of an array; the body of GET /seats is the text
    of a string, whatever the table. *)
Lemma snapshot_is_array (rs : list Row) :
  exists rest, snapshot rs = String "[" rest.
Proof. eexists. reflexivity. Qed.

Lemma get_seats_body_is_string (w : World) (rs : list Row) :
  seats_rows (storage w) = Some rs ->
  exists resp w' rest,
    fetch get_seats_request w = (Returned resp, w')
    /\ resp_body resp = Some (String JSON.dquote rest)
    /\ headers resp = [("Content-Type", "application/json")].
Proof.
  intros H. rewrite (fetch_get_seats w rs H). do 3 eexists.
  split; [reflexivity|]. split; reflexivity.
Qed.

(** C5 at a concrete table: the body of GET /seats is [JSON.stringify] applied
    to the text [getSeats] has already serialized, so it is a quoted string
    and not the array the sockets are sent. *)
Theorem get_seats_double_encoded :
  let rs := [mkRow "1A" (Some "Alice"); mkRow "1B" None; mkRow "2A" None] in
  fetch get_seats_request demo_world
  = (Returned (mkResponse (Some (JSON.stringify_string (snapshot rs))) 200
                 [("Content-Type", "application/json")] None),
     emit_all [Exec SelectSeats] demo_world)
  /\ JSON.stringify_string (snapshot rs) <> snapshot rs
  /\ (exists rest, JSON.stringify_string (snapshot rs) = String JSON.dquote rest)
  /\ (exists rest, snapshot rs = String "[" rest)
  /\ filter is_send (trace (snd (broadcastSeats demo_world)))
     = [Send 1 (snapshot rs); Send 2 (snapshot rs)].
Proof.
  cbv zeta. split; [now apply fetch_get_seats|].
  split; [vm_compute; discriminate|].
  split; [eexists; reflexivity|].
  split; [eexists; reflexivity|].
  vm_compute. reflexivity.
Qed.

(** The constructor run again on the database it has seeded, when the engine
    lists the new table first: it returns at once. *)
Lemma initializeSeats_twice (db : Storage) :
  db <> [] -> seats_rows db = None ->
  construct (storage (snd (construct db)))
  = (Returned tt, mkWorld (storage (snd (construct db))) [] [Exec PragmaTableList]).
Proof.
  intros H1 H2. destruct (construct_fresh db H1 H2) as (_ & ->).
  unfold construct.
  now rewrite (initializeSeats_seats_first _ (mkTable "seats" seeded_rows) db).
Qed.




(* ================================================================== *)
(** ** The scenario of the specification, run on the seeded partition *)

Example scenario_alice_bob :
  let w0 := snd (construct fresh_db) in
  let r1 := fetch (book_request (BookSeat "1A" "Alice")) w0 in
  let r2 := fetch (book_request (BookSeat "1A" "Bob")) (snd r1) in
  let r3 := fetch (book_request (BookSeat "2A" "Alice")) (snd r2) in
  fst r1 = Returned (text_response "Seat 1A booked successfully" 200)
  /\ fst r2 = Returned (text_response "Seat not available" 400)
  /\ fst r3 = Returned (text_response "Seat 2A booked successfully" 200)
  /\ seat_lookup "1A" (snd r3) = Some None
  /\ seat_lookup "2A" (snd r3) = Some (Some "Alice")
  /\ option_map occupants_distinct (seats_rows (storage (snd r3))) = Some true
  /\ fst (fetch (book_request (BookSeat "9Z" "Carol")) (snd r3))
     = Returned (text_response "Seat not available" 400).
Proof. vm_compute. repeat split. Qed.

(* ================================================================== *)
(** ** The snapshot loses nothing *)

Lemma append_assoc (a b c : string) : ((a ++ b) ++ c = a ++ (b ++ c))%string.
Proof. induction a as [|x a IH]; simpl; congruence. Qed.

Lemma strip_prefix (p s : string) : strip p (p ++ s)%string = Some s.
Proof.
  induction p as [|c p IH]; simpl; [reflexivity|]. now rewrite Ascii.eqb_refl.
Qed.

(** Reading back one quoted character. *)
Lemma read_quote_char (c : ascii) (t : string) :
  read_string (JSON.quote_char c ++ t)%string = push_char c (read_string t).
Proof.
  destruct c as [[] [] [] [] [] [] [] []]; reflexivity.
Qed.

Lemma read_quote_chars (s rest : string) :
  read_string (JSON.quote_chars s ++ String JSON.dquote rest)%string = Some (s, rest).
Proof.
  induction s as [|c s IH]; [reflexivity|].
  cbn [JSON.quote_chars]. rewrite append_assoc, read_quote_char, IH. reflexivity.
Qed.

(** A string literal read back after its opening quote. *)
Lemma read_stringify_string (s rest : string) :
  (JSON.stringify_string s ++ rest)%string
  = String JSON.dquote (JSON.quote_chars s ++ String JSON.dquote rest)%string
  /\ read_string (JSON.quote_chars s ++ String JSON.dquote rest)%string = Some (s, rest).
Proof.
  split; [|apply read_quote_chars].
  unfold JSON.stringify_string, JSON.str. cbn [append]. now rewrite append_assoc.
Qed.

Lemma stringify_string_inj (a b : string) :
  JSON.stringify_string a = JSON.stringify_string b -> a = b.
Proof.
  intros H.
  assert (JSON.stringify_string a ++ "" = JSON.stringify_string b ++ "")%string as H'
    by now rewrite H.
  rewrite (proj1 (read_stringify_string a "")), (proj1 (read_stringify_string b "")) in H'.
  injection H' as H'.
  pose proof (read_quote_chars a "") as Ra. rewrite H', read_quote_chars in Ra.
  congruence.
Qed.

Lemma read_stringify_nullable (v : option string) (rest : string) :
  read_nullable (JSON.stringify_nullable v ++ rest)%string = Some (v, rest).
Proof.
  destruct v as [s|]; [|reflexivity].
  cbn [JSON.stringify_nullable].
  rewrite (proj1 (read_stringify_string s rest)).
  unfold read_nullable. cbn [strip JSON.str]. rewrite Ascii.eqb_refl.
  replace (Ascii.eqb "n" JSON.dquote) with false by reflexivity.
  now rewrite read_quote_chars.
Qed.

(** A record read back. *)
Lemma read_stringify_seat (r : Row) (rest : string) :
  read_seat (JSON.stringify_seat r ++ rest)%string = Some (r, rest).
Proof.
  unfold JSON.stringify_seat, read_seat.
  rewrite !append_assoc.
  set (tail1 := (("," ++ JSON.stringify_string "occupant" ++ ":")
                 ++ JSON.stringify_nullable (occupant r) ++ "}" ++ rest)%string).
  assert (("{" ++ JSON.stringify_string "seatNumber" ++ ":"
               ++ JSON.stringify_string (seatId r) ++ ","
               ++ JSON.stringify_string "occupant" ++ ":"
               ++ JSON.stringify_nullable (occupant r) ++ "}" ++ rest)%string
          = (("{" ++ JSON.stringify_string "seatNumber" ++ ":" ++ JSON.str JSON.dquote)
             ++ (JSON.quote_chars (seatId r) ++ String JSON.dquote tail1))%string) as E.
  { unfold tail1, JSON.stringify_string, JSON.str. cbn [append].
    rewrite !append_assoc. cbn [append]. reflexivity. }
  rewrite E, strip_prefix, read_quote_chars. unfold tail1.
  rewrite strip_prefix.
  rewrite (read_stringify_nullable (occupant r) ("}" ++ rest)%string).
  cbn [append strip]. rewrite Ascii.eqb_refl. now destruct r.
Qed.

Lemma join_then_close (x : string) (xs : list string) :
  (JSON.join "," (x :: xs) ++ "]")%string
  = (x ++ match xs with
          | [] => "]"
          | _ :: _ => "," ++ JSON.join "," xs ++ "]"
          end)%string.
Proof.
  destruct xs as [|y ys]; [reflexivity|].
  cbn [JSON.join]. now rewrite !append_assoc.
Qed.

Lemma seats_text_inj (rs1 rs2 : list Row) :
  (JSON.join "," (map JSON.stringify_seat rs1) ++ "]")%string
  = (JSON.join "," (map JSON.stringify_seat rs2) ++ "]")%string ->
  rs1 = rs2.
Proof.
  revert rs2. induction rs1 as [|r1 rs1 IH]; intros [|r2 rs2] H.
  - reflexivity.
  - exfalso. cbn [map] in H. rewrite join_then_close in H.
    unfold JSON.stringify_seat in H. cbn [append JSON.join] in H. discriminate H.
  - exfalso. cbn [map] in H. rewrite join_then_close in H.
    unfold JSON.stringify_seat in H. cbn [append JSON.join] in H. discriminate H.
  - cbn [map] in H. rewrite !join_then_close in H.
    apply (f_equal read_seat) in H. rewrite !read_stringify_seat in H.
    injection H as -> H. f_equal.
    apply IH.
    destruct rs1 as [|a rs1], rs2 as [|b rs2]; cbn [map] in *.
    + reflexivity.
    + discriminate H.
    + discriminate H.
    + cbn [append] in H. now injection H.
Qed.

Lemma snapshot_inj (rs1 rs2 : list Row) : snapshot rs1 = snapshot rs2 -> rs1 = rs2.
Proof.
  unfold snapshot, JSON.stringify_seats. cbn [append]. intros [= H].
  now apply seats_text_inj.
Qed.

Lemma getSeats_returns (w : World) (p : string) :
  fst (getSeats w) = Returned p ->
  exists rs, seats_rows (storage w) = Some rs /\ p = snapshot rs.
Proof.
  unfold getSeats, sql_select_seats, bind, log, ret. cbn [emit storage].
  destruct (seats_rows (storage w)) as [rs|]; cbn; [|discriminate].
  intros [= <-]. now exists rs.
Qed.

(** X1. The payload of [getSeats] determines the table: two tables with the
    same snapshot text have the same rows, identifiers and occupants, in the
    same order, whatever characters the names contain. *)
Theorem getSeats_payload_determines_table (w1 w2 : World) (p : string) :
  fst (getSeats w1) = Returned p ->
  fst (getSeats w2) = Returned p ->
  seats_rows (storage w1) = seats_rows (storage w2).
Proof.
  intros H1 H2.
  apply getSeats_returns in H1 as (rs1 & -> & E1).
  apply getSeats_returns in H2 as (rs2 & -> & E2).
  f_equal. apply snapshot_inj. congruence.
Qed.

Lemma getSeats_payload_determines_table_witness :
  seats_rows (storage demo_world) = seats_rows (storage demo_world_closed).
Proof.
  apply (getSeats_payload_determines_table demo_world demo_world_closed
           (snapshot [mkRow "1A" (Some "Alice"); mkRow "1B" None; mkRow "2A" None]));
    reflexivity.
Defined.

(** X2. The body of GET /seats determines the table as well: the second
    [JSON.stringify] quotes the snapshot without losing anything, so equal
    bodies come from equal tables, and the body is never the snapshot text
    itself. *)
Theorem get_seats_body_determines_table (w1 w2 : World) (r1 r2 : Response) :
  fst (fetch get_seats_request w1) = Returned r1 ->
  fst (fetch get_seats_request w2) = Returned r2 ->
  resp_body r1 = resp_body r2 ->
  seats_rows (storage w1) = seats_rows (storage w2)
  /\ exists rs, seats_rows (storage w1) = Some rs
                /\ resp_body r1 = Some (JSON.stringify_string (snapshot rs))
                /\ resp_body r1 <> Some (snapshot rs).
Proof.
  assert (forall w r, fst (fetch get_seats_request w) = Returned r ->
                      exists rs, seats_rows (storage w) = Some rs
                                 /\ resp_body r = Some (JSON.stringify_string (snapshot rs)))
    as Hget.
  { intros w r H. destruct (seats_rows (storage w)) as [rs|] eqn:E.
    - rewrite (fetch_get_seats w rs E) in H. injection H as <-. now exists rs.
    - exfalso. revert H. unfold fetch. cbn [get_seats_request method pathname].
      cbn [String.eqb Ascii.eqb Bool.eqb andb].
      unfold bind, getSeats, sql_select_seats, bind, log. cbn [emit storage].
      rewrite E. discriminate. }
  intros H1 H2 Hb.
  destruct (Hget w1 r1 H1) as (rs1 & E1 & B1).
  destruct (Hget w2 r2 H2) as (rs2 & E2 & B2).
  assert (rs1 = rs2) as ->.
  { apply snapshot_inj, stringify_string_inj. congruence. }
  split; [congruence|]. exists rs2. split; [exact E1|]. split; [exact B1|].
  rewrite B1. unfold JSON.stringify_string, snapshot, JSON.stringify_seats.
  cbn [append]. discriminate.
Qed.

Lemma get_seats_body_determines_table_witness :
  seats_rows (storage demo_world) = seats_rows (storage demo_world_closed)
  /\ exists rs, seats_rows (storage demo_world) = Some rs
                /\ resp_body
                     (mkResponse
                        (Some (JSON.stringify_string
                                 (snapshot [mkRow "1A" (Some "Alice"); mkRow "1B" None;
                                            mkRow "2A" None])))
                        200 [("Content-Type", "application/json")] None)
                   = Some (JSON.stringify_string (snapshot rs))
                /\ resp_body
                     (mkResponse
                        (Some (JSON.stringify_string
                                 (snapshot [mkRow "1A" (Some "Alice"); mkRow "1B" None;
                                            mkRow "2A" None])))
                        200 [("Content-Type", "application/json")] None)
                   <> Some (snapshot rs).
Proof.
  apply (get_seats_body_determines_table demo_world demo_world_closed
           _ (mkResponse
                (Some (JSON.stringify_string
                         (snapshot [mkRow "1A" (Some "Alice"); mkRow "1B" None;
                                    mkRow "2A" None])))
                200 [("Content-Type", "application/json")] None));
    reflexivity.
Defined.

(* ================================================================== *)
(** ** More on [assignSeat]: what a booking does to every seat *)

Lemma seat_lookup_table (a : string) (w : World) (v : option string) :
  seat_lookup a w = Some v -> exists rs, seats_rows (storage w) = Some rs.
Proof.
  unfold seat_lookup. destruct (seats_rows (storage w)) as [rs|]; [|discriminate].
  intros _. now exists rs.
Qed.

(** The seat [a] after a booking that found its seat free, whatever the
    broadcast did. *)
Lemma seat_lookup_booked (w : World) (sid who a : string) :
  seat_lookup sid w = Some None ->
  seat_lookup a (snd (assignSeat sid who w))
  = match seat_lookup a w with
    | None => None
    | Some o =>
        Some (if String.eqb a sid then Some who
              else match o with
                   | Some x => if String.eqb x who then None else Some x
                   | None => None
                   end)
    end.
Proof.
  intros Hl. destruct (seat_lookup_table sid w None Hl) as (rs & H).
  assert (seats_rows (storage (snd (assignSeat sid who w))) = Some (book_rows who sid rs))
    as Hr.
  { rewrite (assignSeat_storage sid who w rs H), Hl. now apply seats_rows_book. }
  rewrite (seat_lookup_rows a _ _ Hr), (seat_lookup_rows a w rs H).
  apply lookup_book_rows.
Qed.

(** X3. What a call of [assignSeat] does to every seat, as the program reads
    the table.  When the requested seat was found free, it now holds the
    occupant, every other seat the occupant held is empty, and every other
    seat is as it was; in every other case all seats are as they were.  No
    seat appears or disappears, and this holds whether or not the broadcast
    raises. *)
Theorem booking_effect_on_every_seat (w : World) (sid who a : string) :
  seat_lookup a (snd (assignSeat sid who w))
  = match seat_lookup sid w with
    | Some None =>
        match seat_lookup a w with
        | None => None
        | Some o =>
            Some (if String.eqb a sid then Some who
                  else match o with
                       | Some x => if String.eqb x who then None else Some x
                       | None => None
                       end)
        end
    | _ => seat_lookup a w
    end.
Proof.
  destruct (seat_lookup sid w) as [[o|]|] eqn:Hl.
  - destruct (seat_lookup_table sid w _ Hl) as (rs & H).
    rewrite (assignSeat_refused sid who w rs H) by congruence. reflexivity.
  - now apply seat_lookup_booked.
  - destruct (seats_rows (storage w)) as [rs|] eqn:H.
    + rewrite (assignSeat_refused sid who w rs H) by congruence. reflexivity.
    + unfold assignSeat, bind, sql_select_occupant, bind, log. cbn [emit storage].
      rewrite H. reflexivity.
Qed.

(** X4. After a successful booking the occupant holds the requested seat and
    no other: a seat reads as held by the occupant exactly when it is the one
    just booked.  No assumption on the table before is needed. *)
Theorem booked_occupant_holds_exactly_one_seat (w : World) (sid who a : string) :
  seat_lookup sid w = Some None ->
  (seat_lookup a (snd (assignSeat sid who w)) = Some (Some who) <-> a = sid).
Proof.
  intros Hl. rewrite (seat_lookup_booked w sid who a Hl). split.
  - destruct (seat_lookup a w) as [o|]; [|discriminate].
    destruct (String.eqb_spec a sid) as [E|E]; [auto|].
    destruct o as [x|]; [|discriminate].
    destruct (String.eqb_spec x who); [discriminate|]. congruence.
  - intros ->. rewrite Hl, String.eqb_refl. reflexivity.
Qed.

Lemma booked_occupant_holds_exactly_one_seat_witness :
  seat_lookup "1A" (snd (assignSeat "2A" "Alice" demo_world)) = Some (Some "Alice")
  <-> "1A" = "2A".
Proof.
  apply (booked_occupant_holds_exactly_one_seat demo_world "2A" "Alice" "1A").
  reflexivity.
Defined.

(** X5. No double booking: once a booking has found a seat free and taken it,
    a further booking of that seat is refused with status 400, for every
    occupant, also when the broadcast of the first booking raised. *)
Theorem booked_seat_is_then_refused (w : World) (sid who other : string) :
  seat_lookup sid w = Some None ->
  fst (assignSeat sid other (snd (assignSeat sid who w)))
  = Returned (text_response "Seat not available" 400).
Proof.
  intros Hl.
  assert (seat_lookup sid (snd (assignSeat sid who w)) = Some (Some who)) as Hn
    by (rewrite (seat_lookup_booked w sid who sid Hl), Hl, String.eqb_refl; reflexivity).
  destruct (seat_lookup_table _ _ _ Hn) as (rs' & Hr).
  rewrite (assignSeat_refused sid other _ rs' Hr) by congruence. reflexivity.
Qed.

Lemma booked_seat_is_then_refused_witness :
  fst (assignSeat "1B" "Alice" (snd (assignSeat "1B" "Bob" demo_world_closed)))
  = Returned (text_response "Seat not available" 400).
Proof.
  apply (booked_seat_is_then_refused demo_world_closed "1B" "Bob" "Alice"). reflexivity.
Defined.

(* ================================================================== *)
(** ** More on [fetch]: what requests do and never do *)

Lemma seat_lookup_storage (a : string) (w1 w2 : World) :
  storage w1 = storage w2 -> seat_lookup a w1 = seat_lookup a w2.
Proof. unfold seat_lookup. now intros ->. Qed.

(** A call that does not find its seat free leaves the database alone, also
    when there is no table to look into. *)
Lemma assignSeat_unbooked (w : World) (sid who : string) :
  seat_lookup sid w <> Some None ->
  storage (snd (assignSeat sid who w)) = storage w
  /\ sockets (snd (assignSeat sid who w)) = sockets w
  /\ filter is_send (trace (snd (assignSeat sid who w))) = filter is_send (trace w).
Proof.
  intros Hn. destruct (seats_rows (storage w)) as [rs|] eqn:H.
  - rewrite (assignSeat_refused sid who w rs H Hn). cbn [snd emit_all storage sockets trace].
    rewrite filter_app. cbn. now rewrite app_nil_r.
  - unfold assignSeat, bind, sql_select_occupant, bind, log. cbn [emit storage].
    rewrite H. cbn [snd emit storage sockets trace].
    rewrite filter_app. cbn. now rewrite app_nil_r.
Qed.

Lemma getSeats_frame (w : World) :
  storage (snd (getSeats w)) = storage w
  /\ sockets (snd (getSeats w)) = sockets w
  /\ filter is_send (trace (snd (getSeats w))) = filter is_send (trace w)
  /\ filter is_update (trace (snd (getSeats w))) = filter is_update (trace w).
Proof.
  unfold getSeats, sql_select_seats, bind, log, ret. cbn [emit storage].
  destruct (seats_rows (storage w)); cbn [snd emit storage sockets trace];
    rewrite !filter_app; cbn; now rewrite !app_nil_r.
Qed.

Lemma option_eq_dec_none (v : option (option string)) :
  {v = Some None} + {v <> Some None}.
Proof.
  destruct v as [[x|]|]; [right|left|right]; congruence.
Qed.

(** X6. Nobody loses a seat to somebody else's request: a seat held by an
    occupant is still held by that occupant after any sequence of requests in
    which no booking has a [name] that SQL binds as the occupant's text (the
    string itself, or a number whose text it is: the name 5 is bound as
    [5.0]).  Names that are missing, null, other texts or refused by
    [sql.exec] leave the seat alone. *)
Theorem seat_kept_under_other_requests (reqs : list Request) (w : World) (a o : string) :
  seat_lookup a w = Some (Some o) ->
  Forall (fun req => forall sn nm, body req = JsonFields sn nm -> binding nm <> BindText o)
         reqs ->
  seat_lookup a (run_requests reqs w) = Some (Some o).
Proof.
  revert w. induction reqs as [|req reqs IH]; intros w Hl Hall; [exact Hl|].
  inversion Hall as [|? ? Hreq Hrest]; subst.
  cbn [run_requests fold_left]. apply IH; [|exact Hrest].
  destruct (seat_lookup_table a w _ Hl) as (rs & H).
  rewrite (seat_lookup_rows a w rs H) in Hl.
  destruct (fetch_effect req w) as [(sn & nm & Eb & Ef)|Es].
  - rewrite Ef.
    destruct (assignSeat_any_effect sn nm w)
      as [Es|(sid & _ & Hfree & [(who & Hn & Es)|(_ & Es)])].
    + rewrite (seat_lookup_rows a _ rs) by (now rewrite Es). exact Hl.
    + rewrite (seat_lookup_rows sid w rs H) in Hfree.
      rewrite (seat_lookup_rows a _ (book_rows who sid rs))
        by (rewrite Es; now apply seats_rows_book).
      rewrite lookup_book_rows, Hl.
      assert (String.eqb a sid = false) as ->.
      { apply String.eqb_neq. intros ->. congruence. }
      assert (String.eqb o who = false) as ->; [|reflexivity].
      apply String.eqb_neq. intros ->. now apply (Hreq sn nm).
    + rewrite (seat_lookup_rows sid w rs H) in Hfree.
      rewrite (seat_lookup_rows a _ (set_occupant_null sid rs))
        by (rewrite Es; now apply seats_rows_alter).
      rewrite lookup_set_occupant_null, Hl.
      assert (String.eqb a sid = false) as ->; [|reflexivity].
      apply String.eqb_neq. intros ->. congruence.
  - rewrite (seat_lookup_rows a _ rs) by (now rewrite Es). exact Hl.
Qed.

Lemma seat_kept_under_other_requests_witness :
  seat_lookup "1A"
    (run_requests [book_request (BookSeat "1B" "Bob"); get_seats_request;
                   book_request (BookSeat "1A" "Carol"); book_request NotJSON;
                   book_request (JsonFields (js_string "2A") js_undefined);
                   book_request (JsonFields (js_string "2A") (js_number "5" "5.0"))]
       demo_world)
  = Some (Some "Alice").
Proof.
  apply (seat_kept_under_other_requests
           [book_request (BookSeat "1B" "Bob"); get_seats_request;
            book_request (BookSeat "1A" "Carol"); book_request NotJSON;
            book_request (JsonFields (js_string "2A") js_undefined);
            book_request (JsonFields (js_string "2A") (js_number "5" "5.0"))]
           demo_world "1A" "Alice").
  - reflexivity.
  - repeat constructor; intros sn nm H; try discriminate H;
      injection H as <- <-; discriminate.
Defined.

(** A number is bound as its text: the name 5 takes the seat away from the
    occupant whose name is the text [5.0]. *)
Example number_name_is_compared_as_text :
  let w := mkWorld [mkTable "seats" [mkRow "1A" (Some "5.0"); mkRow "1B" None]] [] [] in
  let w' := snd (fetch (book_request (JsonFields (js_string "1B") (js_number "5" "5.0"))) w) in
  seat_lookup "1A" w' = Some None /\ seat_lookup "1B" w' = Some (Some "5.0").
Proof. vm_compute. split; reflexivity. Qed.

(** X7. Requests of any kind, in any number, keep the seats of the table (the
    same identifiers in the same order, none added, none dropped), the
    primary key and occupant uniqueness, from every table that has them. *)
Theorem requests_keep_seats_and_uniqueness (reqs : list Request) (w : World)
        (rs : list Row) :
  seats_rows (storage w) = Some rs ->
  key_unique rs -> occupant_unique rs ->
  exists rs',
    seats_rows (storage (run_requests reqs w)) = Some rs'
    /\ map seatId rs' = map seatId rs
    /\ key_unique rs'
    /\ occupant_unique rs'
    /\ occupants_distinct rs' = true.
Proof.
  intros H K U.
  destruct (run_requests_invariant reqs w rs H U) as (rs' & H' & I' & U').
  exists rs'. repeat split; auto.
  - unfold key_unique in *. now rewrite I'.
  - now apply occupants_distinct_iff.
Qed.

Lemma requests_keep_seats_and_uniqueness_witness :
  exists rs',
    seats_rows (storage (run_requests [book_request (BookSeat "2A" "Alice"); get_seats_request]
                           demo_world)) = Some rs'
    /\ map seatId rs'
       = map seatId [mkRow "1A" (Some "Alice"); mkRow "1B" None; mkRow "2A" None]
    /\ key_unique rs'
    /\ occupant_unique rs'
    /\ occupants_distinct rs' = true.
Proof.
  apply (requests_keep_seats_and_uniqueness
           [book_request (BookSeat "2A" "Alice"); get_seats_request] demo_world
           [mkRow "1A" (Some "Alice"); mkRow "1B" None; mkRow "2A" None]).
  - reflexivity.
  - apply distinct_NoDup. reflexivity.
  - apply occupants_distinct_iff. reflexivity.
Defined.

Lemma fetch_names (req : Request) (w : World) :
  map name (storage (snd (fetch req w))) = map name (storage w).
Proof.
  destruct (fetch_effect req w) as [(sn & nm & _ & Ef)|Es]; [rewrite Ef|now rewrite Es].
  destruct (assignSeat_any_effect sn nm w)
    as [Es|(sid & _ & _ & [(who & _ & Es)|(_ & Es)])]; rewrite Es.
  - reflexivity.
  - unfold book_storage. now rewrite !alter_seats_names.
  - now rewrite alter_seats_names.
Qed.

Lemma run_requests_names (reqs : list Request) (w : World) :
  map name (storage (run_requests reqs w)) = map name (storage w).
Proof.
  revert w. induction reqs as [|req reqs IH]; intros w; [reflexivity|].
  cbn [run_requests fold_left]. fold (run_requests reqs (snd (fetch req w))).
  now rewrite IH, fetch_names.
Qed.

(** X8. A restart after any traffic keeps the bookings when [seats] is the
    table listed first: requests never create, drop or reorder tables, so
    [initializeSeats] run again finds the name at index 0 and returns at once;
    it executes the PRAGMA and nothing else, and the rows are untouched. *)
Theorem restart_after_requests_is_noop (reqs : list Request) (w : World)
        (t : Table) (rest : Storage) :
  storage w = t :: rest -> name t = "seats" ->
  initializeSeats (run_requests reqs w)
  = (Returned tt, emit_all [Exec PragmaTableList] (run_requests reqs w)).
Proof.
  intros Hs Hn.
  pose proof (run_requests_names reqs w) as Hnames. rewrite Hs in Hnames.
  destruct (storage (run_requests reqs w)) as [|t' rest'] eqn:Hs'; [discriminate|].
  cbn [map] in Hnames. injection Hnames as Ht _.
  apply (initializeSeats_seats_first _ t' rest' Hs'). congruence.
Qed.

Lemma restart_after_requests_is_noop_witness :
  initializeSeats (run_requests [book_request (BookSeat "2A" "Alice")] demo_world)
  = (Returned tt,
     emit_all [Exec PragmaTableList]
       (run_requests [book_request (BookSeat "2A" "Alice")] demo_world)).
Proof.
  apply (restart_after_requests_is_noop [book_request (BookSeat "2A" "Alice")] demo_world
           (mkTable "seats" [mkRow "1A" (Some "Alice"); mkRow "1B" None; mkRow "2A" None])
           [mkTable "sqlite_schema" []]).
  - reflexivity.
  - reflexivity.
Defined.

(** X9. Only POST /book-seat writes: every other request leaves the table as
    it was, executes no UPDATE and sends nothing to any socket. *)
Theorem only_book_seat_writes (req : Request) (w : World) :
  ~ (method req = "POST" /\ pathname req = "/book-seat") ->
  storage (snd (fetch req w)) = storage w
  /\ filter is_update (trace (snd (fetch req w))) = filter is_update (trace w)
  /\ filter is_send (trace (snd (fetch req w))) = filter is_send (trace w).
Proof.
  intros Hnot. unfold fetch.
  destruct (String.eqb (method req) "GET" && String.eqb (pathname req) "/seats").
  - unfold bind at 1 2 3.
    pose proof (getSeats_frame w) as (Hs & _ & Hsend & Hupd).
    destruct (getSeats w) as [[p|e] w']; auto.
  - destruct (String.eqb (method req) "POST" && String.eqb (pathname req) "/book-seat") eqn:E.
    + exfalso. apply andb_true_iff in E as [E1 E2].
      apply String.eqb_eq in E1, E2. auto.
    + destruct (is_upgrade req); auto.
Qed.

Lemma only_book_seat_writes_witness :
  storage (snd (fetch get_seats_request demo_world)) = storage demo_world
  /\ filter is_update (trace (snd (fetch get_seats_request demo_world)))
     = filter is_update (trace demo_world)
  /\ filter is_send (trace (snd (fetch get_seats_request demo_world)))
     = filter is_send (trace demo_world).
Proof.
  apply (only_book_seat_writes get_seats_request demo_world).
  intros [H _]. discriminate H.
Defined.

(** X10. The request handler answers: on a world that has its table and whose
    registered sockets accept their sends, [fetch] returns a response, with
    status 200, 400, 404 or 101, for every request other than a POST
    /book-seat whose body is not JSON, is the JSON value [null], or has a
    field that [sql.exec] refuses to bind.  Fields that are missing, null or
    numbers are answered like any others. *)
Theorem fetch_answers_bindable_requests (req : Request) (w : World) (rs : list Row) :
  seats_rows (storage w) = Some rs ->
  all_open (sockets w) = true ->
  (method req = "POST" -> pathname req = "/book-seat" ->
   exists sn nm, body req = JsonFields sn nm
                 /\ binding sn <> BindError /\ binding nm <> BindError) ->
  exists resp w',
    fetch req w = (Returned resp, w') /\ In (status resp) [200; 400; 404; 101].
Proof.
  intros H Ho Hb. unfold fetch.
  destruct (String.eqb (method req) "GET" && String.eqb (pathname req) "/seats").
  - unfold bind at 1. rewrite (getSeats_run w rs H).
    do 2 eexists. split; [reflexivity|]. cbn. auto.
  - destruct (String.eqb (method req) "POST" && String.eqb (pathname req) "/book-seat") eqn:E.
    + apply andb_true_iff in E as [E1 E2]. apply String.eqb_eq in E1, E2.
      destruct (Hb E1 E2) as (sn & nm & Eb & Hsn & Hnm). unfold request_json. rewrite Eb.
      unfold bind at 1, ret. cbn [fst snd].
      destruct (binding sn) as [|sid|] eqn:Hs; [| |contradiction].
      * rewrite (assignSeat_any_null_key sn nm w rs Hs H).
        do 2 eexists. split; [reflexivity|]. cbn. auto.
      * destruct (option_eq_dec_none (seat_lookup sid w)) as [Hfree|Hbusy].
        -- destruct (binding nm) as [|who|] eqn:Hn; [| |contradiction].
           ++ rewrite (assignSeat_any_null_name sn nm sid w rs Hs Hn H Hfree).
              unfold bind at 1.
              rewrite (broadcastSeats_open _ (set_occupant_null sid rs))
                by (simpl; auto using seats_rows_alter).
              do 2 eexists. split; [reflexivity|]. cbn. auto.
           ++ rewrite (assignSeat_any_text sn nm sid who w Hs Hn).
              rewrite (assignSeat_booked sid who w rs H Hfree Ho). cbn [fst snd].
              do 2 eexists. split; [reflexivity|]. cbn. auto.
        -- rewrite (assignSeat_any_refused sn nm sid w rs Hs H Hbusy).
           do 2 eexists. split; [reflexivity|]. cbn. auto.
    + destruct (is_upgrade req).
      * do 2 eexists. split; [reflexivity|]. cbn. auto.
      * do 2 eexists. split; [reflexivity|]. cbn. auto.
Qed.

Lemma fetch_answers_bindable_requests_witness :
  exists resp w',
    fetch (book_request (JsonFields js_undefined (js_number "5" "5.0"))) demo_world
    = (Returned resp, w')
    /\ In (status resp) [200; 400; 404; 101].
Proof.
  apply (fetch_answers_bindable_requests
           (book_request (JsonFields js_undefined (js_number "5" "5.0"))) demo_world
           [mkRow "1A" (Some "Alice"); mkRow "1B" None; mkRow "2A" None]).
  - reflexivity.
  - reflexivity.
  - intros _ _. exists js_undefined, (js_number "5" "5.0").
    split; [reflexivity|]. split; discriminate.
Defined.

(* ================================================================== *)
(** ** [handleWebSocket] and the next broadcast *)




(* ================================================================== *)
(** ** Seeding a new database *)

Lemma forEach_ext {A} (xs : list A) (f g : A -> M unit) (w : World) :
  (forall x w', f x w' = g x w') -> forEach xs f w = forEach xs g w.
Proof.
  intros E. revert w. induction xs as [|x xs IH]; intros w; [reflexivity|].
  cbn [forEach]. unfold bind. rewrite E.
  destruct (g x w) as [[u|e] w']; [apply IH|reflexivity].
Qed.

Lemma forEach_map {A B} (h : A -> B) (xs : list A) (f : B -> M unit) (w : World) :
  forEach (map h xs) f w = forEach xs (fun x => f (h x)) w.
Proof.
  revert w. induction xs as [|x xs IH]; intros w; [reflexivity|].
  cbn [map forEach]. unfold bind.
  destruct (f (h x) w) as [[u|e] w']; [apply IH|reflexivity].
Qed.

Lemma forEach_app {A} (xs ys : list A) (f : A -> M unit) (w : World) :
  forEach (xs ++ ys) f w = (forEach xs f ;;; forEach ys f) w.
Proof.
  revert w. induction xs as [|x xs IH]; intros w; [reflexivity|].
  cbn [app forEach]. unfold bind.
  destruct (f x w) as [[u|e] w']; [|reflexivity].
  rewrite IH. reflexivity.
Qed.

(** A loop inside a loop runs its body on the elements one after the other. *)
Lemma forEach_nested {A B} (xs : list A) (g : A -> list B) (f : B -> M unit) (w : World) :
  forEach xs (fun x => forEach (g x) f) w = forEach (flat_map g xs) f w.
Proof.
  revert w. induction xs as [|x xs IH]; intros w; [reflexivity|].
  cbn [forEach flat_map]. rewrite forEach_app. unfold bind.
  destruct (forEach (g x) f w) as [[u|e] w']; [apply IH|reflexivity].
Qed.

Lemma has_seat_app (sid : string) (rs1 rs2 : list Row) :
  has_seat sid (rs1 ++ rs2) = has_seat sid rs1 || has_seat sid rs2.
Proof. unfold has_seat. apply existsb_app. Qed.

(** INSERT after INSERT into the table listed first: identifiers that are new
    and distinct are appended in order. *)
Lemma insert_all (ids : list string) (rs : list Row) (rest : Storage)
      (wss : list WebSocket) (tr : list Event) :
  NoDup ids -> (forall i, In i ids -> has_seat i rs = false) ->
  forEach ids sql_insert_seat (mkWorld (mkTable "seats" rs :: rest) wss tr)
  = (Returned tt,
     mkWorld (mkTable "seats" (rs ++ map (fun s => mkRow s None) ids) :: rest) wss
       (tr ++ map (fun s => Exec (InsertSeat s)) ids)).
Proof.
  revert rs tr. induction ids as [|i ids IH]; intros rs tr Hnd Hnew.
  - cbn [forEach map]. unfold ret. now rewrite !app_nil_r.
  - inversion Hnd as [|? ? Hi Hnd']; subst.
    cbn [forEach]. unfold bind at 1.
    unfold sql_insert_seat, bind at 1, log. cbn [emit storage sockets trace seats_rows].
    change (is_seats (mkTable "seats" rs)) with true. cbv iota. cbn [rows].
    rewrite (Hnew i) by now left.
    unfold set_storage, emit. cbn [alter_seats storage sockets trace].
    change (is_seats (mkTable "seats" rs)) with true. cbv iota. cbn [name rows].
    rewrite IH.
    + cbn [map]. rewrite <- !app_assoc. reflexivity.
    + assumption.
    + intros j Hj. rewrite has_seat_app, (Hnew j) by now right.
      cbn. rewrite orb_false_r. apply String.eqb_neq. intros ->. contradiction.
Qed.

(** X12. On a database that has no table [seats] yet, [initializeSeats]
    executes the PRAGMA, the CREATE TABLE and one INSERT per seat, row by row
    and column by column, and returns: the table then has the 60 seats [1A] to
    [10F] in that order, all empty and with distinct identifiers; the sockets
    are untouched. *)
Theorem seeding_creates_sixty_empty_seats (db : Storage) (wss : list WebSocket)
        (tr : list Event) :
  db <> [] -> seats_rows db = None ->
  initializeSeats (mkWorld db wss tr)
  = (Returned tt,
     mkWorld (mkTable "seats" (map (fun s => mkRow s None) layout) :: db) wss
       (tr ++ [Exec PragmaTableList; Exec CreateTableSeats]
           ++ map (fun s => Exec (InsertSeat s)) layout))
  /\ length layout = 60
  /\ NoDup layout
  /\ hd_error layout = Some "1A" /\ last layout "" = "10F".
Proof.
  intros Hne Hno. split; [|split; [reflexivity|split; [apply layout_NoDup|split; reflexivity]]].
  destruct db as [|t rest]; [contradiction|].
  pose proof (first_not_seats t rest Hno) as Hn.
  unfold initializeSeats. unfold bind at 1. unfold sql_table_list, bind at 1, log.
  cbn [emit storage map]. rewrite Hn.
  unfold bind at 1. unfold sql_create_seats, bind at 1, log.
  cbn [emit storage]. rewrite Hno.
  unfold set_storage. cbn [storage sockets trace].
  rewrite (forEach_ext (seq 1 10) _
             (fun row => forEach (map (seatNumber_of row) (seq 0 6)) sql_insert_seat))
    by (intros row w'; now rewrite forEach_map).
  rewrite forEach_nested. fold layout.
  change seats_name with "seats".
  rewrite (insert_all layout [] (t :: rest) wss _ layout_NoDup) by reflexivity.
  unfold emit. cbn [app trace]. now rewrite <- !app_assoc.
Qed.

Lemma seeding_creates_sixty_empty_seats_witness :
  initializeSeats (mkWorld fresh_db [] [])
  = (Returned tt,
     mkWorld (mkTable "seats" (map (fun s => mkRow s None) layout) :: fresh_db) []
       ([] ++ [Exec PragmaTableList; Exec CreateTableSeats]
           ++ map (fun s => Exec (InsertSeat s)) layout))
  /\ length layout = 60
  /\ NoDup layout
  /\ hd_error layout = Some "1A" /\ last layout "" = "10F".
Proof.
  apply (seeding_creates_sixty_empty_seats fresh_db [] []).
  - discriminate.
  - reflexivity.
Defined.

(* ================================================================== *)
(** ** The Worker: one object per flight *)

Lemma worker_fetch_other (r : WorkerRequest) (ns : Namespace) (g : string) :
  addressed_to g r = false -> snd (worker_fetch r ns) g = ns g.
Proof.
  unfold addressed_to, worker_fetch. destruct (flightId r) as [f|]; [|reflexivity].
  destruct (String.eqb f "") eqn:Ee; [reflexivity|].
  rewrite andb_true_r. intros Hfg. cbn [snd]. unfold set_object.
  now rewrite String.eqb_sym, Hfg.
Qed.

Lemma worker_fetch_same (r : WorkerRequest) (ns : Namespace) (g : string) :
  addressed_to g r = true ->
  snd (worker_fetch r ns) g = snd (fetch (forwarded r) (ns g))
  /\ fst (worker_fetch r ns) = fst (fetch (forwarded r) (ns g)).
Proof.
  unfold addressed_to, worker_fetch. destruct (flightId r) as [f|]; [|discriminate].
  intros H. apply andb_true_iff in H as [Hfg He].
  apply String.eqb_eq in Hfg. subst f. apply negb_true_iff in He. rewrite He.
  cbn [fst snd]. unfold set_object. now rewrite String.eqb_refl.
Qed.

(** X13. Flights do not interfere.  A request without a [flightId], or with an
    empty one, is answered 404 and reaches no object.  After any sequence of
    requests through the Worker, the object of a flight is what it would be
    had it alone received, in order, the requests addressed to it: requests
    for other flights leave it untouched. *)
Theorem worker_keeps_flights_apart (rs : list WorkerRequest) (ns : Namespace) (g : string) :
  (forall r, no_flight (flightId r) = true ->
             worker_fetch r ns = (Returned (text_response "Flight ID not found" 404), ns))
  /\ run_worker rs ns g
     = run_requests (map forwarded (filter (addressed_to g) rs)) (ns g).
Proof.
  split.
  - intros r. unfold no_flight, worker_fetch.
    destruct (flightId r) as [f|]; [|reflexivity]. now intros ->.
  - revert ns. induction rs as [|r rs IH]; intros ns; [reflexivity|].
    cbn [run_worker fold_left]. fold (run_worker rs (snd (worker_fetch r ns))).
    rewrite IH. cbn [filter].
    destruct (addressed_to g r) eqn:E.
    + cbn [map run_requests fold_left].
      now rewrite (proj1 (worker_fetch_same r ns g E)).
    + now rewrite (worker_fetch_other r ns g E).
Qed.

Example worker_two_flights :
  let ns := fun _ : string => demo_world in
  let reqs := [mkWorkerRequest (Some "F1") (book_request (BookSeat "1B" "Bob"));
               mkWorkerRequest None (book_request (BookSeat "2A" "Eve"));
               mkWorkerRequest (Some "") (book_request (BookSeat "2A" "Eve"));
               mkWorkerRequest (Some "F2") (book_request (BookSeat "1B" "Carol"))] in
  seat_lookup "1B" (run_worker reqs ns "F1") = Some (Some "Bob")
  /\ seat_lookup "1B" (run_worker reqs ns "F2") = Some (Some "Carol")
  /\ seat_lookup "2A" (run_worker reqs ns "") = Some None
  /\ seat_lookup "1B" (run_worker reqs ns "F3") = Some None.
Proof. vm_compute. repeat split. Qed.

(* ================================================================== *)
(** ** Re-seating *)

(** With Alice in 1A, 2A free and a registered socket that has closed, the
    booking of 2A for Alice does not succeed: it raises. *)
Lemma reseating_raises_when_send_raises :
  seat_lookup "1A" demo_world_closed = Some (Some "Alice")
  /\ seat_lookup "2A" demo_world_closed = Some None
  /\ fst (assignSeat "2A" "Alice" demo_world_closed) = Thrown send_closed
  /\ ~ (exists resp w', assignSeat "2A" "Alice" demo_world_closed = (Returned resp, w')).
Proof.
  split; [reflexivity|]. split; [reflexivity|]. split; [reflexivity|].
  intros (resp & w' & E). discriminate E.
Qed.

(** C2, as the code has it.  When X holds seat A and seat B exists and is
    empty, booking X into B leaves A empty and B held by X, in every such
    state.  When every registered socket accepts its send, the call returns
    the confirmation for B (status 200) and what it does is, in order: the
    SELECT, the two UPDATEs, and one round of the broadcast in which each
    registered socket is sent, once, the snapshot of the table after both
    changes: every table that serializes to that payload has A empty and B
    held by X.  When the send of a registered socket raises, the booking
    raises instead of succeeding. *)
Theorem reseating_moves_occupant (w : World) (X A B : string) :
  seat_lookup A w = Some (Some X) ->
  seat_lookup B w = Some None ->
  let w' := snd (assignSeat B X w) in
  seat_lookup A w' = Some None
  /\ seat_lookup B w' = Some (Some X)
  /\ (all_open (sockets w) = true ->
      exists rs',
        seats_rows (storage w') = Some rs'
        /\ assignSeat B X w
           = (Returned (text_response ("Seat " ++ B ++ " booked successfully") 200), w')
        /\ sockets w' = sockets w
        /\ trace w' = trace w
                      ++ [Exec (SelectOccupant B); Exec (UpdateClearOccupant X);
                          Exec (UpdateSetOccupant X B)]
                      ++ flat_map (fun ws => [Exec SelectSeats; Send (ws_id ws) (snapshot rs')])
                           (sockets w)
        /\ forall shown,
             snapshot shown = snapshot rs' ->
             hd_error (select_occupant A shown) = Some None
             /\ hd_error (select_occupant B shown) = Some (Some X))
  /\ (forall pre ws post,
        sockets w = pre ++ ws :: post -> all_open pre = true -> ws_open ws = false ->
        fst (assignSeat B X w) = Thrown send_closed).
Proof.
  intros HA HB w'.
  destruct (seat_lookup_table A w _ HA) as (rs & H).
  assert (storage w' = book_storage X B (storage w)) as Hst.
  { unfold w'. rewrite (assignSeat_storage B X w rs H). now rewrite HB. }
  assert (seats_rows (storage w') = Some (book_rows X B rs)) as Hr
    by (rewrite Hst; now apply seats_rows_book).
  assert (seat_lookup A w' = Some None /\ seat_lookup B w' = Some (Some X)) as [HA' HB'].
  { unfold w'. rewrite !(seat_lookup_booked w B X _ HB), HA, HB.
    assert (String.eqb A B = false) as ->
      by (apply String.eqb_neq; intros ->; congruence).
    now rewrite !String.eqb_refl. }
  split; [exact HA'|]. split; [exact HB'|]. split.
  - intros Ho. exists (book_rows X B rs). split; [exact Hr|].
    pose proof (assignSeat_booked B X w rs H HB Ho) as E.
    unfold w'. rewrite E. cbn [snd].
    split; [reflexivity|]. split; [reflexivity|]. split; [reflexivity|].
    intros shown Hshown. apply snapshot_inj in Hshown. subst shown.
    fold w' in HA', HB'.
    rewrite (seat_lookup_rows A w' _ Hr) in HA'.
    rewrite (seat_lookup_rows B w' _ Hr) in HB'. auto.
  - intros pre ws post Hs Hpre Hws.
    now rewrite (assignSeat_send_raises B X w rs pre post ws H HB Hs Hpre Hws).
Qed.

Lemma reseating_moves_occupant_witness :
  let w' := snd (assignSeat "2A" "Alice" demo_world) in
  seat_lookup "1A" w' = Some None
  /\ seat_lookup "2A" w' = Some (Some "Alice")
  /\ exists rs',
       seats_rows (storage w') = Some rs'
       /\ assignSeat "2A" "Alice" demo_world
          = (Returned (text_response ("Seat " ++ "2A" ++ " booked successfully") 200), w')
       /\ sockets w' = sockets demo_world
       /\ trace w' = trace demo_world
                     ++ [Exec (SelectOccupant "2A"); Exec (UpdateClearOccupant "Alice");
                         Exec (UpdateSetOccupant "Alice" "2A")]
                     ++ flat_map (fun ws => [Exec SelectSeats; Send (ws_id ws) (snapshot rs')])
                          (sockets demo_world)
       /\ forall shown,
            snapshot shown = snapshot rs' ->
            hd_error (select_occupant "1A" shown) = Some None
            /\ hd_error (select_occupant "2A" shown) = Some (Some "Alice").
Proof.
  destruct (reseating_moves_occupant demo_world "Alice" "1A" "2A" eq_refl eq_refl)
    as (HA & HB & Hbroadcast & _).
  split; [exact HA|]. split; [exact HB|]. apply Hbroadcast. reflexivity.
Defined.

(* ================================================================== *)
(** ** Initializing twice *)

(** C6. Seeding is idempotent.  On a database without the table the first
    [initializeSeats] seeds it.  Run again, at once or after any requests, on
    the database as it then is, [initializeSeats] finds [seats] at the head
    of the table list and returns having executed the PRAGMA only: no CREATE,
    no INSERT, and every row of the table is as it was, bookings included.
    In whatever order the engine lists its tables, a table that has the seat
    1A keeps its rows through [initializeSeats]: when the name is not found at
    index 0, CREATE TABLE IF NOT EXISTS does nothing and the first INSERT is
    refused by the primary key before any row is written. *)
Theorem seeding_is_idempotent (db : Storage) (reqs : list Request) (w : World) :
  db <> [] -> seats_rows db = None ->
  storage w = storage (run_requests reqs (snd (construct db))) ->
  fst (construct db) = Returned tt
  /\ initializeSeats w = (Returned tt, emit_all [Exec PragmaTableList] w)
  /\ seats_rows (storage (snd (initializeSeats w))) = seats_rows (storage w)
  /\ (exists rs, seats_rows (storage w) = Some rs /\ map seatId rs = layout)
  /\ (forall (v : World) (rs : list Row),
        seats_rows (storage v) = Some rs -> has_seat "1A" rs = true ->
        seats_rows (storage (snd (initializeSeats v))) = Some rs).
Proof.
  intros H1 H2 Hw.
  destruct (construct_fresh db H1 H2) as (Hret & Hs).
  assert (map name (storage w) = "seats" :: map name db) as Hnames.
  { rewrite Hw, run_requests_names, Hs. reflexivity. }
  assert (initializeSeats w = (Returned tt, emit_all [Exec PragmaTableList] w)) as Einit.
  { destruct (storage w) as [|t rest] eqn:Est; [discriminate|].
    cbn [map] in Hnames. injection Hnames as Ht _.
    exact (initializeSeats_seats_first w t rest Est Ht). }
  split; [exact Hret|]. split; [exact Einit|]. split; [now rewrite Einit|]. split.
  - assert (seats_rows (storage (snd (construct db))) = Some seeded_rows) as Hseed
      by (now rewrite Hs).
    destruct (run_requests_invariant reqs _ seeded_rows Hseed seeded_unique)
      as (rs & Hr & Hi & _).
    exists rs. rewrite Hw. split; [exact Hr|]. now rewrite Hi, seeded_ids.
  - intros v rs Hv H1A.
    destruct (storage v) as [|t rest] eqn:Est; [discriminate|].
    destruct (String.eqb (name t) "seats") eqn:Et.
    + apply String.eqb_eq in Et.
      rewrite (initializeSeats_seats_first v t rest Est Et). cbn [snd emit_all storage].
      now rewrite Est.
    + assert (seats_rows rest = Some rs) as Hrest.
      { revert Hv. cbn [seats_rows]. unfold is_seats, seats_name. now rewrite Et. }
      rewrite (initializeSeats_seats_later v t rest rs Est Et Hrest H1A).
      cbn [snd emit_all storage]. now rewrite Est.
Qed.

Lemma seeding_is_idempotent_witness :
  fst (construct fresh_db) = Returned tt
  /\ initializeSeats (run_requests [book_request (BookSeat "1A" "Alice")] (snd (construct fresh_db)))
     = (Returned tt,
        emit_all [Exec PragmaTableList]
          (run_requests [book_request (BookSeat "1A" "Alice")] (snd (construct fresh_db))))
  /\ seats_rows
       (storage
          (snd (initializeSeats
                  (run_requests [book_request (BookSeat "1A" "Alice")]
                     (snd (construct fresh_db))))))
     = seats_rows
         (storage (run_requests [book_request (BookSeat "1A" "Alice")]
                     (snd (construct fresh_db))))
  /\ (exists rs,
        seats_rows
          (storage (run_requests [book_request (BookSeat "1A" "Alice")]
                      (snd (construct fresh_db)))) = Some rs
        /\ map seatId rs = layout)
  /\ (forall (v : World) (rs : list Row),
        seats_rows (storage v) = Some rs -> has_seat "1A" rs = true ->
        seats_rows (storage (snd (initializeSeats v))) = Some rs).
Proof.
  apply (seeding_is_idempotent fresh_db [book_request (BookSeat "1A" "Alice")]
           (run_requests [book_request (BookSeat "1A" "Alice")] (snd (construct fresh_db)))).
  - discriminate.
  - reflexivity.
  - reflexivity.
Defined.
